(** * Sigma dropdown auto-selector: a model of the generated selection script

    The repository generates a self-executing JavaScript program (the
    template string of [generateControlScript] in [src/unnamed/part_001]
    and in [src/README.md], and of [createScript] in [src/src/App.tsx])
    that finds a dropdown in the page and selects its first meaningful
    option.  This file embeds that program: the document as a flat list of
    element nodes, the three-strategy resolver, the two selection
    strategies, the retry loop, the DOM-observer fallback, and the event
    loop that fires timers and delivers mutation batches. *)

From Stdlib Require Import String Ascii List ZArith QArith Bool Lia.
Import ListNotations.
Open Scope Z_scope.

(** ** Strings

    A JavaScript string is represented by the UTF-8 encoding of its code
    points.  String equality, concatenation and substring search on the
    encodings agree with those on the strings; white space is recognised
    by its encoding below. *)

Definition dq : string := String (ascii_of_nat 34) EmptyString.

(** Substring test used by JavaScript [String.prototype.includes]. *)
Fixpoint contains (pat s : string) : bool :=
  if String.prefix pat s then true
  else match s with
       | EmptyString => false
       | String _ s' => contains pat s'
       end.

(** CSS [[attr*="v"]]: an empty [v] never matches. *)
Definition attr_contains (v pat : string) : bool :=
  negb (String.eqb pat EmptyString) && contains pat v.

(** JavaScript white space and line terminators (the characters removed by
    [String.prototype.trim] and skipped by [parseInt]), by the length of
    their encoding.  One byte: TAB, LF, VT, FF, CR and SPACE. *)
Definition is_ws (c : ascii) : bool :=
  let n := nat_of_ascii c in
  (Nat.eqb n 32 || Nat.eqb n 9 || Nat.eqb n 10 || Nat.eqb n 11
   || Nat.eqb n 12 || Nat.eqb n 13)%bool.

(** Two bytes: U+00A0 NO-BREAK SPACE (C2 A0). *)
Definition is_ws2 (c1 c2 : ascii) : bool :=
  (Nat.eqb (nat_of_ascii c1) 194 && Nat.eqb (nat_of_ascii c2) 160)%bool.

(** Three bytes: U+1680 (E1 9A 80), U+2000 to U+200A (E2 80 80 to
    E2 80 8A), U+2028 and U+2029 (E2 80 A8, E2 80 A9), U+202F (E2 80 AF),
    U+205F (E2 81 9F), U+3000 (E3 80 80) and U+FEFF (EF BB BF). *)
Definition is_ws3 (c1 c2 c3 : ascii) : bool :=
  let a := nat_of_ascii c1 in
  let b := nat_of_ascii c2 in
  let c := nat_of_ascii c3 in
  ((Nat.eqb a 225 && Nat.eqb b 154 && Nat.eqb c 128)
   || (Nat.eqb a 226 && Nat.eqb b 128
       && ((Nat.leb 128 c && Nat.leb c 138) || Nat.eqb c 168 || Nat.eqb c 169 || Nat.eqb c 175))
   || (Nat.eqb a 226 && Nat.eqb b 129 && Nat.eqb c 159)
   || (Nat.eqb a 227 && Nat.eqb b 128 && Nat.eqb c 128)
   || (Nat.eqb a 239 && Nat.eqb b 187 && Nat.eqb c 191))%bool.

(** Remove the leading white space. *)
Fixpoint trim_left (s : string) : string :=
  match s with
  | EmptyString => EmptyString
  | String c1 s1 =>
      if is_ws c1 then trim_left s1
      else match s1 with
           | String c2 s2 =>
               if is_ws2 c1 c2 then trim_left s2
               else match s2 with
                    | String c3 s3 => if is_ws3 c1 c2 c3 then trim_left s3 else s
                    | EmptyString => s
                    end
           | EmptyString => s
           end
  end.

(** The same on a reversed encoding: removes the trailing white space of
    the string it is the reverse of. *)
Fixpoint trim_left_rev (s : string) : string :=
  match s with
  | EmptyString => EmptyString
  | String c1 s1 =>
      if is_ws c1 then trim_left_rev s1
      else match s1 with
           | String c2 s2 =>
               if is_ws2 c2 c1 then trim_left_rev s2
               else match s2 with
                    | String c3 s3 => if is_ws3 c3 c2 c1 then trim_left_rev s3 else s
                    | EmptyString => s
                    end
           | EmptyString => s
           end
  end.

Fixpoint rev_string (s : string) (acc : string) : string :=
  match s with
  | EmptyString => acc
  | String c s' => rev_string s' (String c acc)
  end.

(** JavaScript [String.prototype.trim]. *)
Definition trim (s : string) : string :=
  rev_string (trim_left_rev (rev_string (trim_left s) EmptyString)) EmptyString.

(** ASCII white space of HTML (TAB, LF, FF, CR, SPACE), which separates
    the tokens of a [class] attribute. *)
Definition is_html_ws (c : ascii) : bool :=
  let n := nat_of_ascii c in
  (Nat.eqb n 32 || Nat.eqb n 9 || Nat.eqb n 10 || Nat.eqb n 12 || Nat.eqb n 13)%bool.

(** Split a [class] attribute into its white-space separated tokens. *)
Fixpoint class_tokens_aux (s : string) (cur : string) : list string :=
  match s with
  | EmptyString => if String.eqb cur EmptyString then [] else [rev_string cur EmptyString]
  | String c s' =>
      if is_html_ws c then
        (if String.eqb cur EmptyString then [] else [rev_string cur EmptyString])
          ++ class_tokens_aux s' EmptyString
      else class_tokens_aux s' (String c cur)
  end.

Definition class_tokens (s : string) : list string := class_tokens_aux s EmptyString.

(** Decimal digits of a natural number. *)
Fixpoint digits_of (fuel : nat) (n : N) (acc : string) : string :=
  match fuel with
  | O => acc
  | S f =>
      let d := N.modulo n 10 in
      let acc' := String (ascii_of_N (48 + d)) acc in
      let q := N.div n 10 in
      if N.eqb q 0 then acc' else digits_of f q acc'
  end.

Definition N_to_string (n : N) : string := digits_of (S (N.size_nat n)) n EmptyString.

Definition Z_to_string (z : Z) : string :=
  if z <? 0 then String "-" (N_to_string (Z.to_N (- z))) else N_to_string (Z.to_N z).

(** ** JavaScript numbers

    The numbers of the scripts are integers: [parseInt] results, the
    attempt counter and the configured delays.  An integer-valued double
    is represented by its exact value. *)

Inductive JSNum := Num (z : Z) | NaN | PosInf | NegInf.

(** Rounding a non-negative integer to the nearest double (53-bit
    significand, ties to even); the result may be [2 ^ 1024] or more,
    which stands for overflow. *)
Definition round_mag (m : Z) : Z :=
  if m <=? 2 ^ 53 then m
  else
    let sh := Z.log2 m - 52 in
    let q := Z.shiftr m sh in
    let r := m - Z.shiftl q sh in
    let half := Z.shiftl 1 (sh - 1) in
    let q' := if ((half <? r) || ((r =? half) && Z.odd q))%bool then q + 1 else q in
    Z.shiftl q' sh.

(** The Number value of [sign * m]. *)
Definition to_number (neg : bool) (m : Z) : JSNum :=
  let r := round_mag m in
  if 2 ^ 1024 <=? r then (if neg then NegInf else PosInf)
  else Num (if neg then - r else r).

(** [attempts++] and [attempts + 1]: the sum, rounded to a double.  From
    [2 ^ 53] on, adding 1 gives the same number again. *)
Definition js_incr (a : Z) : Z := round_mag (a + 1).

(** [Number.prototype.toString] on an integer-valued double [x > 0]: the
    shortest digit string [s] with [s * 10 ^ e] rounding to [x], the
    closest one to [x] if there are two, the even one on a tie; printed
    in full up to 21 digits, in exponent form beyond. *)
Definition ndigits (x : Z) : Z := Z.of_nat (String.length (N_to_string (Z.to_N x))).

Definition candidate (x k : Z) : option Z :=
  let e := ndigits x - k in
  if e <=? 0 then Some x
  else
    let p := 10 ^ e in
    let lo := x / p * p in
    let hi := lo + p in
    let okl := round_mag lo =? x in
    let okh := round_mag hi =? x in
    if (okl && okh)%bool then
      if x - lo <? hi - x then Some lo
      else if hi - x <? x - lo then Some hi
      else if Z.even (lo / p) then Some lo else Some hi
    else if okl then Some lo else if okh then Some hi else None.

Fixpoint shortest_from (fuel : nat) (k x : Z) : Z :=
  match fuel with
  | O => x
  | S f => match candidate x k with Some c => c | None => shortest_from f (k + 1) x end
  end.

Definition shortest (x : Z) : Z := shortest_from (Z.to_nat (ndigits x)) 1 x.

Fixpoint drop_zeros (s : string) : string :=
  match s with
  | String "0" s' => drop_zeros s'
  | _ => s
  end.

Definition render_digits (c : Z) : string :=
  let ds := N_to_string (Z.to_N c) in
  let n := String.length ds in
  if Nat.leb n 21 then ds
  else
    match rev_string (drop_zeros (rev_string ds EmptyString)) EmptyString with
    | String d EmptyString => String d ("e+" ++ Z_to_string (Z.of_nat n - 1))
    | String d rest => String d ("." ++ rest ++ "e+" ++ Z_to_string (Z.of_nat n - 1))
    | EmptyString => ds
    end.

(** String conversion of the integer-valued double nearest to [z]. *)
Definition number_to_string (z : Z) : string :=
  if z =? 0 then "0"
  else if z <? 0 then String "-" (render_digits (shortest (round_mag (- z))))
  else render_digits (shortest (round_mag z)).

Definition JSNum_to_string (x : JSNum) : string :=
  match x with
  | Num z => number_to_string z
  | NaN => "NaN"
  | PosInf => "Infinity"
  | NegInf => "-Infinity"
  end.

(** [a < x] for a finite [a]: every comparison with NaN is false. *)
Definition js_lt (a : Z) (x : JSNum) : bool :=
  match x with
  | Num z => a <? z
  | NaN => false
  | PosInf => true
  | NegInf => false
  end.

Definition digit_val (c : ascii) : option Z :=
  let n := nat_of_ascii c in
  if (Nat.leb 48 n && Nat.leb n 57)%bool then Some (Z.of_nat n - 48) else None.

Definition starts_digit (s : string) : bool :=
  match s with
  | String c _ => match digit_val c with Some _ => true | None => false end
  | EmptyString => false
  end.

Fixpoint parse_digits (s : string) (acc : Z) : Z :=
  match s with
  | EmptyString => acc
  | String c s' =>
      match digit_val c with
      | Some d => parse_digits s' (acc * 10 + d)
      | None => acc
      end
  end.

(** The longest run of decimal digits at the start of [s], as the Number
    [sign * value]; NaN when there is none.  The value is rounded to the
    nearest double (the specification also lets an engine zero the digits
    after the 20th first; this is the correctly rounded choice). *)
Definition parse_unsigned (neg : bool) (s : string) : JSNum :=
  match s with
  | String c _ =>
      match digit_val c with Some _ => to_number neg (parse_digits s 0) | None => NaN end
  | EmptyString => NaN
  end.

(** [parseInt(s, 10)]: leading white space, an optional sign, then the
    digits. *)
Definition parseInt10 (s : string) : JSNum :=
  match trim_left s with
  | String c s2 =>
      if Ascii.eqb c "-" then parse_unsigned true s2
      else if Ascii.eqb c "+" then parse_unsigned false s2
      else parse_unsigned false (String c s2)
  | EmptyString => NaN
  end.

(** ** The document *)

Record OptionEl := mkOption { opt_value : string; opt_text : string }.

(** An element node.  [textContent] is the node's text content (its own
    and its descendants'); [width]/[height] are the size of the node's
    bounding box ([getBoundingClientRect()]);
    [options]/[selectedIndex] are meaningful for [SELECT] elements. *)
Record Node := mkNode {
  nid : nat;
  tagName : string;
  attrs : list (string * string);
  textContent : string;
  parent : option nat;
  width : Q;
  height : Q;
  options : list OptionEl;
  selectedIndex : Z }.

(** Elements in document order. *)
Definition Doc := list Node.

Fixpoint assoc (k : string) (l : list (string * string)) : option string :=
  match l with
  | [] => None
  | (k', v) :: l' => if String.eqb k k' then Some v else assoc k l'
  end.

Definition attr (n : Node) (k : string) : option string := assoc k (attrs n).

Definition has_attr (n : Node) (k : string) : bool :=
  match attr n k with Some _ => true | None => false end.

Definition attr_is (n : Node) (k v : string) : bool :=
  match attr n k with Some v' => String.eqb v' v | None => false end.

Definition attr_has (n : Node) (k pat : string) : bool :=
  match attr n k with Some v => attr_contains v pat | None => false end.

Definition has_class (n : Node) (c : string) : bool :=
  match attr n "class" with
  | Some v => existsb (String.eqb c) (class_tokens v)
  | None => false
  end.

Fixpoint lookup_node (i : nat) (d : Doc) : option Node :=
  match d with
  | [] => None
  | n :: d' => if Nat.eqb (nid n) i then Some n else lookup_node i d'
  end.

(** [el.closest(sel)]: the element itself, then its ancestors. *)
Fixpoint closest_aux (p : Node -> bool) (d : Doc) (fuel : nat) (n : Node) : option Node :=
  if p n then Some n
  else match fuel with
       | O => None
       | S f =>
           match parent n with
           | Some pid => match lookup_node pid d with
                         | Some pn => closest_aux p d f pn
                         | None => None
                         end
           | None => None
           end
       end.

Definition closest (p : Node -> bool) (d : Doc) (n : Node) : option Node :=
  closest_aux p d (length d) n.

(** ** Target Resolver ([selectFirstOption], strategies 1 to 3)

    The identifier is spliced between double quotes into the selectors of
    strategies 1 and 2.  When it is [css_string_safe] (no double quote,
    backslash, line feed, form feed, carriage return or NUL), the quoted
    part is a CSS string whose value is the identifier itself, and the
    selectors test the attribute values below.  Other identifiers make
    [querySelector] throw or test something else; the statements about
    runs assume a safe identifier. *)

Definition css_string_safe (id : string) : bool :=
  forallb (fun c => negb (existsb (Nat.eqb (nat_of_ascii c)) [34; 92; 10; 12; 13; 0]%nat))
          (list_ascii_of_string id).

Definition strategy1 (id : string) (n : Node) : bool := attr_is n "data-control-id" id.

Definition strategy2 (id : string) (n : Node) : bool :=
  attr_has n "aria-label" id || attr_has n "title" id.

(** ['select, [role="combobox"], [role="listbox"], [class*="dropdown"], [class*="select"]'] *)
Definition dropdown_shape (n : Node) : bool :=
  String.eqb (tagName n) "SELECT" || attr_is n "role" "combobox" || attr_is n "role" "listbox"
  || attr_has n "class" "dropdown" || attr_has n "class" "select".

(** ['[data-testid], [class*="control"], [class*="filter"]'] *)
Definition control_marker (n : Node) : bool :=
  has_attr n "data-testid" || attr_has n "class" "control" || attr_has n "class" "filter".

Definition strategy3 (id : string) (d : Doc) (el : Node) : bool :=
  dropdown_shape el &&
  match closest control_marker d el with
  | Some p => contains id (textContent p)
  | None => false
  end.

Definition resolve (id : string) (d : Doc) : option Node :=
  match find (strategy1 id) d with
  | Some n => Some n
  | None =>
      match find (strategy2 id) d with
      | Some n => Some n
      | None => find (strategy3 id d) d
      end
  end.

(** ** Observable effects of the script

    [Log] is a [console.log] line of the script ([log(message)]); [Resolve]
    is a ghost marker emitted at each Resolver invocation (it is not
    printed by the script, it only makes resolution attempts countable). *)
Inductive Effect :=
| Log (s : string)
| Resolve
| SetSelectedIndex (node : nat) (i : nat)
| Dispatch (node : nat) (event : string) (bubbles : bool)
| Click (node : nat).

(** ** Option Selector, native strategy ([handleSelectDropdown]) *)

Definition startIndex (opts : list OptionEl) : nat :=
  match opts with
  | o0 :: _ =>
      if (String.eqb (opt_value o0) EmptyString
          || String.eqb (trim (opt_text o0)) EmptyString)%bool then 1%nat else 0%nat
  | [] => 0%nat
  end.

Definition set_selectedIndex (n : Node) (i : Z) : Node :=
  mkNode (nid n) (tagName n) (attrs n) (textContent n) (parent n)
         (width n) (height n) (options n) i.

Definition selected_msg (label : string) : string :=
  "Selected option: " ++ dq ++ label ++ dq.

(** Returns the script's boolean result, the element after the call and
    the effects performed, in order. *)
Definition handleSelectDropdown (sel : Node) : bool * Node * list Effect :=
  let opts := options sel in
  if Nat.ltb 0 (length opts) then
    let s := startIndex opts in
    if Nat.ltb s (length opts) then
      (true, set_selectedIndex sel (Z.of_nat s),
       [SetSelectedIndex (nid sel) s;
        Dispatch (nid sel) "change" true;
        Dispatch (nid sel) "input" true;
        Log (selected_msg (opt_text (nth s opts (mkOption "" ""))))])
    else (false, sel, [])
  else (false, sel, []).

(** ** Option Selector, custom-widget strategy (deferred part)

    ['[role="option"], [data-value], .dropdown-item, .select-option, [class*="option"]'] *)
Definition option_shape (n : Node) : bool :=
  attr_is n "role" "option" || has_attr n "data-value" || has_class n "dropdown-item"
  || has_class n "select-option" || attr_has n "class" "option".

Definition visible (n : Node) : bool :=
  negb (Qle_bool (width n) 0) && negb (Qle_bool (height n) 0).

Definition no_visible_msg : string := "No visible options found after opening dropdown".

(** The body of the 200 ms [setTimeout] callback of [handleCustomDropdown];
    its [return true] / [return false] goes nowhere, so only the effects
    remain. *)
Definition settle_effects (d : Doc) : list Effect :=
  let opts := filter option_shape d in
  if Nat.ltb 0 (length opts) then
    match filter visible opts with
    | first :: _ => [Click (nid first); Log (selected_msg (trim (textContent first)))]
    | [] => [Log no_visible_msg]
    end
  else [Log no_visible_msg].

(** ** The run's state *)

Inductive Task := TRetry | TSettle | TObserverTimeout.

Record Config := mkConfig {
  targetControlId : string;
  maxRetries : JSNum;
  retryDelay : Z;
  observerTimeout : Z }.

(** [timers] holds the pending [setTimeout] callbacks with their due time,
    in scheduling order; [observer] is whether the MutationObserver is
    connected; [trace] is everything the run did, in order. *)
Record World := mkWorld {
  now : Z;
  dom : Doc;
  attempts : Z;
  timers : list (Z * Task);
  observer : bool;
  trace : list Effect }.

Definition emit (es : list Effect) (w : World) : World :=
  mkWorld (now w) (dom w) (attempts w) (timers w) (observer w) (trace w ++ es).

Definition set_dom (d : Doc) (w : World) : World :=
  mkWorld (now w) d (attempts w) (timers w) (observer w) (trace w).

Definition set_attempts (a : Z) (w : World) : World :=
  mkWorld (now w) (dom w) a (timers w) (observer w) (trace w).

(** [setTimeout(f, delay)]: negative delays count as 0.  The delays the
    scripts pass (200, 500 and 30000 ms) are below [2 ^ 31] ms and not
    below the 4 ms to which browsers raise short delays of deeply nested
    timers, so the callback is due [delay] ms later. *)
Definition schedule (delay : Z) (t : Task) (w : World) : World :=
  mkWorld (now w) (dom w) (attempts w) (timers w ++ [(now w + Z.max 0 delay, t)])
          (observer w) (trace w).

Definition set_observer (b : bool) (w : World) : World :=
  mkWorld (now w) (dom w) (attempts w) (timers w) b (trace w).

Definition set_now (t : Z) (w : World) : World :=
  mkWorld t (dom w) (attempts w) (timers w) (observer w) (trace w).

Definition set_timers (l : list (Z * Task)) (w : World) : World :=
  mkWorld (now w) (dom w) (attempts w) l (observer w) (trace w).

Definition replace_node (n : Node) (d : Doc) : Doc :=
  map (fun m => if Nat.eqb (nid m) (nid n) then n else m) d.

(** ** Script variants

    [WithObserver] is the script of [src/unnamed/part_001] and
    [src/README.md]; [RetryOnly] is the script of [src/src/App.tsx], whose
    [trySelectWithRetry] stops after the last retry. *)
Inductive Variant := WithObserver | RetryOnly.

Definition found_msg (v : Variant) : string :=
  match v with
  | WithObserver => "Found dropdown element:"
  | RetryOnly => "Found dropdown element"
  end.

Definition max_msg (v : Variant) : string :=
  match v with
  | WithObserver => "Max retry attempts reached. Setting up DOM observer..."
  | RetryOnly => "Max retry attempts reached"
  end.

Definition success_msg : string := "Selection completed successfully".
Definition observer_success_msg : string := "Selection completed via DOM observer".
Definition timeout_msg : string := "DOM observer timeout reached".
Definition start_msg : string := "Starting auto-selection process...".
Definition not_found_msg : string := "Dropdown not found".

Definition attempt_msg (a : Z) : string :=
  "Attempt " ++ number_to_string a ++ " to find and select dropdown option".

Definition retry_msg (cfg : Config) (a : Z) : string :=
  "Retrying in " ++ number_to_string (retryDelay cfg) ++ "ms... (attempt "
  ++ number_to_string (js_incr a) ++ "/" ++ JSNum_to_string (maxRetries cfg) ++ ")".

Section Engine.

Variable v : Variant.
Variable cfg : Config.

(** [handleCustomDropdown]: click, defer the option lookup by 200 ms, and
    return [true] at once. *)
Definition handleCustomDropdown (el : Node) (w : World) : World * bool :=
  (schedule 200 TSettle (emit [Click (nid el)] w), true).

Definition selectFirstOption (w : World) : World * bool :=
  let a := js_incr (attempts w) in
  let w1 := emit [Log (attempt_msg a); Resolve] (set_attempts a w) in
  match resolve (targetControlId cfg) (dom w1) with
  | Some el =>
      let w2 := emit [Log (found_msg v)] w1 in
      if String.eqb (tagName el) "SELECT" then
        let '(ok, el', es) := handleSelectDropdown el in
        (emit es (if ok then set_dom (replace_node el' (dom w2)) w2 else w2), ok)
      else handleCustomDropdown el w2
  | None => (emit [Log not_found_msg] w1, false)
  end.

(** [setupDOMObserver]: connect the observer and arm the timeout. *)
Definition setupDOMObserver (w : World) : World :=
  schedule (observerTimeout cfg) TObserverTimeout (set_observer true w).

Definition trySelectWithRetry (w : World) : World :=
  let '(w1, ok) := selectFirstOption w in
  if ok then emit [Log success_msg] w1
  else if js_lt (attempts w1) (maxRetries cfg) then
    schedule (retryDelay cfg) TRetry (emit [Log (retry_msg cfg (attempts w1))] w1)
  else
    match v with
    | WithObserver => setupDOMObserver (emit [Log (max_msg v)] w1)
    | RetryOnly => emit [Log (max_msg v)] w1
    end.

(** A mutation record: its [type] and the number of added nodes. *)
Record Mutation := mkMutation { mtype : string; added : nat }.

Definition qualifying (m : Mutation) : bool :=
  String.eqb (mtype m) "childList" && Nat.ltb 0 (added m).

(** The MutationObserver callback on one batch of records. *)
Fixpoint observe_batch (ms : list Mutation) (w : World) : World :=
  match ms with
  | [] => w
  | m :: ms' =>
      if qualifying m then
        let '(w1, ok) := selectFirstOption w in
        if ok then emit [Log observer_success_msg] (set_observer false w1)
        else observe_batch ms' w1
      else observe_batch ms' w
  end.

(** A timer callback. *)
Definition fire (t : Task) (w : World) : World :=
  match t with
  | TRetry => trySelectWithRetry w
  | TSettle => emit (settle_effects (dom w)) w
  | TObserverTimeout => emit [Log timeout_msg] (set_observer false w)
  end.

End Engine.

(** ** The event loop

    Timers fire in order of due time, ties in scheduling order.  The page
    itself changes the document at given times ([EnvEvent]); each change
    comes with the batch of mutation records the observer then receives
    if it is connected.  A timer due no later than the next page change
    fires first. *)

Record EnvEvent := mkEnvEvent {
  ev_at : Z;
  ev_mutate : Doc -> Doc;
  ev_batch : list Mutation }.

Fixpoint min_due (l : list (Z * Task)) : option Z :=
  match l with
  | [] => None
  | (t, _) :: l' =>
      match min_due l' with
      | Some m => Some (Z.min t m)
      | None => Some t
      end
  end.

Fixpoint take_due (m : Z) (l : list (Z * Task)) : option ((Z * Task) * list (Z * Task)) :=
  match l with
  | [] => None
  | p :: l' =>
      if fst p =? m then Some (p, l')
      else match take_due m l' with
           | Some (q, r) => Some (q, p :: r)
           | None => None
           end
  end.

Definition pick_timer (l : list (Z * Task)) : option ((Z * Task) * list (Z * Task)) :=
  match min_due l with
  | Some m => take_due m l
  | None => None
  end.

Section Loop.

Variable v : Variant.
Variable cfg : Config.

Definition fire_timer (p : Z * Task) (rest : list (Z * Task)) (w : World) : World :=
  fire v cfg (snd p) (set_timers rest (set_now (Z.max (now w) (fst p)) w)).

Definition deliver (e : EnvEvent) (w : World) : World :=
  let w1 := set_dom (ev_mutate e (dom w)) (set_now (Z.max (now w) (ev_at e)) w) in
  if observer w1 then observe_batch v cfg (ev_batch e) w1 else w1.

(** One turn of the event loop; [None] when nothing is left to do. *)
Definition step (w : World) (env : list EnvEvent) : option (World * list EnvEvent) :=
  match pick_timer (timers w), env with
  | None, [] => None
  | Some (p, rest), [] => Some (fire_timer p rest w, [])
  | None, e :: env' => Some (deliver e w, env')
  | Some (p, rest), e :: env' =>
      if fst p <=? ev_at e then Some (fire_timer p rest w, env)
      else Some (deliver e w, env')
  end.

Fixpoint run (fuel : nat) (w : World) (env : list EnvEvent) : World * list EnvEvent :=
  match fuel with
  | O => (w, env)
  | S f =>
      match step w env with
      | Some (w', env') => run f w' env'
      | None => (w, env)
      end
  end.

Definition initial_world (d : Doc) : World := mkWorld 0 d 0 [] false [Log start_msg].

(** The script's top level: log, then [trySelectWithRetry()]. *)
Definition start (d : Doc) : World := trySelectWithRetry v cfg (initial_world d).

Definition script_run (fuel : nat) (d : Doc) (env : list EnvEvent) : World * list EnvEvent :=
  run fuel (start d) env.

End Loop.

(** ** Script generation ([generateControlScript] / [createScript]) *)

(** The settings record [Partial<PluginConfig>]: every field may be absent. *)
Record PluginConfig := mkPluginConfig {
  targetControl : option string;
  autoTrigger : option bool;
  instructions : option string;
  triggerOnLoad : option bool;
  retryAttempts : option string }.

(** [s || d] on a possibly absent string: absent and [''] are falsy. *)
Definition or_default (s : option string) (d : string) : string :=
  match s with
  | Some x => if String.eqb x EmptyString then d else x
  | None => d
  end.

Definition truthy (s : option string) : bool :=
  match s with Some x => negb (String.eqb x EmptyString) | None => false end.

(** [parseInt(config.retryAttempts || '3', 10)]. *)
Definition baked_retries (pc : PluginConfig) : JSNum :=
  parseInt10 (or_default (retryAttempts pc) "3").

Definition nl : string := String (ascii_of_nat 10) EmptyString.
Definition sq : string := String (ascii_of_nat 39) EmptyString.

(** U+2028 and U+2029, which end a [//] comment like a line feed. *)
Definition line_sep : string :=
  String (ascii_of_nat 226) (String (ascii_of_nat 128) (String (ascii_of_nat 168) EmptyString)).
Definition para_sep : string :=
  String (ascii_of_nat 226) (String (ascii_of_nat 128) (String (ascii_of_nat 169) EmptyString)).

Definition has_byte (n : nat) (s : string) : bool :=
  existsb (fun c => Nat.eqb (nat_of_ascii c) n) (list_ascii_of_string s).

(** The target identifier is spliced into the script text as it is: in
    [src/unnamed/part_001] into a [//] comment line and a single-quoted
    literal, in [src/src/App.tsx] into a double-quoted literal.  It reads
    back as the same string exactly when it contains neither the quote,
    a backslash nor a line break (and, in the comment, no U+2028 or
    U+2029); otherwise the script does not parse or means something
    else. *)
Definition literal_ok (v : Variant) (tc : string) : bool :=
  negb (has_byte 92 tc || has_byte 10 tc || has_byte 13 tc)
  && match v with
     | WithObserver => negb (has_byte 39 tc || contains line_sep tc || contains para_sep tc)
     | RetryOnly => negb (has_byte 34 tc)
     end.

(** The [CONFIG] object the generated script runs with, when its literal
    reads back: [targetControlId] the identifier, [maxRetries] the parsed
    setting (its printed form [Infinity], [1e+21], ... reads back as the
    same number), [retryDelay: 500], [observerTimeout: 30000]. *)
Definition baked_config (v : Variant) (tc : string) (pc : PluginConfig) : option Config :=
  if literal_ok v tc then Some (mkConfig tc (baked_retries pc) 500 30000) else None.

(** The text of the template up to the end of the [CONFIG] literal; the
    engine that follows it in the template is the one modelled above by
    [trySelectWithRetry], [observe_batch] and [run]. *)
Definition config_block (v : Variant) (tc : string) (n : JSNum) : string :=
  let q := match v with WithObserver => sq | RetryOnly => dq end in
  "(function() {" ++ nl ++ "  var CONFIG = {" ++ nl
  ++ "    targetControlId: " ++ q ++ tc ++ q ++ "," ++ nl
  ++ "    maxRetries: " ++ JSNum_to_string n ++ "," ++ nl
  ++ "    retryDelay: 500," ++ nl ++ "    observerTimeout: 30000" ++ nl ++ "  };" ++ nl.

Definition script_header (v : Variant) (tc : string) (generated : string) : string :=
  match v with
  | WithObserver =>
      "// Sigma Dropdown Auto-Selector Script" ++ nl
      ++ "// Target Control: " ++ tc ++ nl
      ++ "// Generated: " ++ generated ++ nl ++ nl
  | RetryOnly => EmptyString
  end.

(** [generated] is [new Date().toISOString()]. *)
Definition generateControlScript (v : Variant) (pc : PluginConfig) (generated : string) : string :=
  match targetControl pc with
  | Some tc =>
      if truthy (Some tc) then
        script_header v tc generated ++ config_block v tc (baked_retries pc)
      else EmptyString
  | None => EmptyString
  end.

(** ** Derived notions used by the statements *)

Definition is_resolve (e : Effect) : bool := match e with Resolve => true | _ => false end.

(** Number of Resolver invocations recorded in a trace. *)
Definition count_resolves (tr : list Effect) : nat := length (filter is_resolve tr).

(** Whether resolving and selecting on document [d] returns [true]. *)
Definition cycle_ok (cfg : Config) (d : Doc) : bool :=
  match resolve (targetControlId cfg) d with
  | Some el =>
      if String.eqb (tagName el) "SELECT" then fst (fst (handleSelectDropdown el)) else true
  | None => false
  end.

Definition has_log (s : string) (tr : list Effect) : bool :=
  existsb (fun e => match e with Log s' => String.eqb s s' | _ => false end) tr.

(** ** General lemmas *)

Lemma count_resolves_app : forall l1 l2,
  count_resolves (l1 ++ l2) = (count_resolves l1 + count_resolves l2)%nat.
Proof. intros. unfold count_resolves. rewrite filter_app, length_app. reflexivity. Qed.

Lemma has_log_spec : forall s tr, has_log s tr = true <-> In (Log s) tr.
Proof.
  intros s tr. unfold has_log. rewrite existsb_exists. split.
  - intros [e [Hin He]]. destruct e; try discriminate.
    apply String.eqb_eq in He. subst. exact Hin.
  - intros Hin. exists (Log s). split; [exact Hin | apply String.eqb_refl].
Qed.

Lemma handleSelect_cases : forall sel,
  handleSelectDropdown sel = (false, sel, []) \/
  handleSelectDropdown sel =
    (true, set_selectedIndex sel (Z.of_nat (startIndex (options sel))),
     [SetSelectedIndex (nid sel) (startIndex (options sel));
      Dispatch (nid sel) "change" true; Dispatch (nid sel) "input" true;
      Log (selected_msg (opt_text (nth (startIndex (options sel)) (options sel) (mkOption "" ""))))]).
Proof.
  intros sel. unfold handleSelectDropdown.
  destruct (Nat.ltb 0 (length (options sel))); [|left; reflexivity].
  destruct (Nat.ltb (startIndex (options sel)) (length (options sel))); [right|left]; reflexivity.
Qed.

Lemma selectFirstOption_ok : forall v cfg w,
  snd (selectFirstOption v cfg w) = cycle_ok cfg (dom w).
Proof.
  intros v cfg w. unfold selectFirstOption, cycle_ok. simpl.
  destruct (resolve (targetControlId cfg) (dom w)) as [el|]; [|reflexivity].
  destruct (String.eqb (tagName el) "SELECT"); [|reflexivity].
  destruct (handleSelectDropdown el) as [[ok el'] es]. reflexivity.
Qed.

(** ** Claims about the Option Selector *)

(** C2 (as stated, refuted): the start index is 1 exactly when the first
    option has both an empty value and an empty trimmed text.  An option
    with empty value and text [All] already gives start index 1. *)
Lemma C2_both_empty_rule_counterexample :
  ~ (forall o0 rest,
       startIndex (o0 :: rest) = 1%nat <->
       (opt_value o0 = EmptyString /\ trim (opt_text o0) = EmptyString)).
Proof.
  intros H. specialize (H (mkOption "" "All") []).
  destruct H as [H _]. destruct (H eq_refl) as [_ Ht]. discriminate Ht.
Qed.

(** C2 (amended): for a non-empty option list the start index is 1 when
    the first option has an empty value OR an empty trimmed text, and 0
    when both are non-empty; a successful native selection sets exactly
    that index. *)
Theorem C2_start_index_either_empty : forall sel o0 rest,
  options sel = o0 :: rest ->
  (startIndex (options sel) = 1%nat <->
     (opt_value o0 = EmptyString \/ trim (opt_text o0) = EmptyString)) /\
  (startIndex (options sel) = 0%nat <->
     (opt_value o0 <> EmptyString /\ trim (opt_text o0) <> EmptyString)) /\
  (forall sel' es, handleSelectDropdown sel = (true, sel', es) ->
     hd_error es = Some (SetSelectedIndex (nid sel) (startIndex (options sel)))).
Proof.
  intros sel o0 rest Hopts. split; [|split].
  - rewrite Hopts. simpl.
    destruct (String.eqb (opt_value o0) "") eqn:E1;
      destruct (String.eqb (trim (opt_text o0)) "") eqn:E2; simpl;
      rewrite ?String.eqb_eq, ?String.eqb_neq in *; split; intros H;
      try tauto; try discriminate; destruct H; contradiction.
  - rewrite Hopts. simpl.
    destruct (String.eqb (opt_value o0) "") eqn:E1;
      destruct (String.eqb (trim (opt_text o0)) "") eqn:E2; simpl;
      rewrite ?String.eqb_eq, ?String.eqb_neq in *; split; intros H;
      try tauto; try discriminate; destruct H; contradiction.
  - intros sel' es Hh. destruct (handleSelect_cases sel) as [E|E]; rewrite E in Hh.
    + discriminate.
    + inversion Hh; subst. reflexivity.
Qed.

Lemma C2_start_index_either_empty_witness :
  options (mkNode 1 "SELECT" [] "" None 1 1 [mkOption "" "All"; mkOption "b" "Beta"] 0)
    = mkOption "" "All" :: [mkOption "b" "Beta"] /\
  startIndex [mkOption "" "All"; mkOption "b" "Beta"] = 1%nat /\
  startIndex [mkOption "x" (String (ascii_of_nat 194) (String (ascii_of_nat 160) EmptyString));
              mkOption "b" "Beta"] = 1%nat.
Proof.
  split; [reflexivity|split].
  - apply (C2_start_index_either_empty
             (mkNode 1 "SELECT" [] "" None 1 1 [mkOption "" "All"; mkOption "b" "Beta"] 0)
             (mkOption "" "All") [mkOption "b" "Beta"] eq_refl).
    left. reflexivity.
  - apply (C2_start_index_either_empty
             (mkNode 1 "SELECT" [] "" None 1 1
                [mkOption "x" (String (ascii_of_nat 194) (String (ascii_of_nat 160) EmptyString));
                 mkOption "b" "Beta"] 0)
             (mkOption "x" (String (ascii_of_nat 194) (String (ascii_of_nat 160) EmptyString)))
             [mkOption "b" "Beta"] eq_refl).
    right. vm_compute. reflexivity.
Defined.

Lemma startIndex_set : forall sel i,
  options (set_selectedIndex sel i) = options sel /\ nid (set_selectedIndex sel i) = nid sel.
Proof. intros. split; reflexivity. Qed.

(** C8: selecting again on a native select the engine has already
    selected sets the same index, dispatches the same [change] and [input]
    events, logs the same label and succeeds; nothing depends on the
    element's current [selectedIndex]. *)
Theorem C8_native_select_idempotent : forall sel sel' es,
  handleSelectDropdown sel = (true, sel', es) ->
  selectedIndex sel' = Z.of_nat (startIndex (options sel')) /\
  handleSelectDropdown sel' = (true, sel', es) /\
  (forall i, handleSelectDropdown (set_selectedIndex sel i) = (true, sel', es)) /\
  (selectedIndex sel = Z.of_nat (startIndex (options sel)) -> sel' = sel).
Proof.
  intros sel sel' es H.
  destruct (handleSelect_cases sel) as [E|E]; rewrite E in H; [discriminate|].
  inversion H; subst; clear H.
  split; [reflexivity|]. split; [|split].
  - unfold handleSelectDropdown at 1. simpl.
    unfold handleSelectDropdown in E.
    destruct (Nat.ltb 0 (length (options sel))); [|discriminate].
    destruct (Nat.ltb (startIndex (options sel)) (length (options sel))); [|discriminate].
    reflexivity.
  - intros i. unfold handleSelectDropdown at 1. simpl.
    unfold handleSelectDropdown in E.
    destruct (Nat.ltb 0 (length (options sel))); [|discriminate].
    destruct (Nat.ltb (startIndex (options sel)) (length (options sel))); [|discriminate].
    reflexivity.
  - intros Hs. destruct sel; simpl in *. rewrite <- Hs. reflexivity.
Qed.

(** ** Effects that mark the end of a phase *)

Definition marker (v : Variant) (e : Effect) : Prop :=
  e = Log (max_msg v) \/ e = Log success_msg \/ e = Log observer_success_msg
  \/ e = Log timeout_msg.

Definition marker_free (v : Variant) (es : list Effect) : Prop :=
  forall e, In e es -> ~ marker v e.

Ltac show_marker_free :=
  let e := fresh "e" in let Hin := fresh "Hin" in
  intros e Hin; simpl in Hin;
  repeat (destruct Hin as [<-|Hin]); try contradiction;
  unfold marker, max_msg, success_msg, observer_success_msg, timeout_msg,
    selected_msg, attempt_msg, retry_msg, found_msg, not_found_msg, no_visible_msg;
  simpl; intros [Hm|[Hm|[Hm|Hm]]]; discriminate Hm.

Lemma marker_free_app : forall v l1 l2,
  marker_free v l1 -> marker_free v l2 -> marker_free v (l1 ++ l2).
Proof.
  intros v l1 l2 H1 H2 e Hin. apply in_app_or in Hin. destruct Hin; auto.
Qed.

Lemma settle_cases : forall d,
  (exists n lbl, settle_effects d = [Click n; Log (selected_msg lbl)]) \/
  settle_effects d = [Log no_visible_msg].
Proof.
  intros d. unfold settle_effects.
  destruct (Nat.ltb 0 (length (filter option_shape d))); [|right; reflexivity].
  destruct (filter visible (filter option_shape d)) as [|f r]; [right; reflexivity|].
  left. eauto.
Qed.

Lemma settle_marker_free : forall v d, marker_free v (settle_effects d).
Proof.
  intros v d. destruct (settle_cases d) as [[n [lbl E]]|E]; rewrite E;
    destruct v; show_marker_free.
Qed.

Lemma settle_count : forall d, count_resolves (settle_effects d) = 0%nat.
Proof.
  intros d. destruct (settle_cases d) as [[n [lbl E]]|E]; rewrite E; reflexivity.
Qed.

(** The shape of one Resolve-Select cycle. *)
Lemma selectFirstOption_shape : forall v cfg w,
  let '(w1, ok) := selectFirstOption v cfg w in
  now w1 = now w /\ attempts w1 = js_incr (attempts w) /\ observer w1 = observer w /\
  (exists es, trace w1 = trace w ++ es /\ count_resolves es = 1%nat /\ marker_free v es) /\
  (ok = false -> timers w1 = timers w /\ dom w1 = dom w) /\
  (timers w1 = timers w \/ (ok = true /\ timers w1 = timers w ++ [(now w + 200, TSettle)])).
Proof.
  intros v cfg w. unfold selectFirstOption. cbn [dom emit set_attempts].
  destruct (resolve (targetControlId cfg) (dom w)) as [el|];
    [destruct (String.eqb (tagName el) "SELECT");
     [destruct (handleSelect_cases el) as [E|E]; rewrite E|]|];
    simpl; repeat split; auto; try discriminate;
    try (right; split; reflexivity);
    (eexists; split; [rewrite <- !app_assoc; reflexivity|];
     split; [reflexivity|]; destruct v; show_marker_free).
Qed.

Lemma emit_nil : forall w, emit [] w = w.
Proof. intros [] . unfold emit. simpl. rewrite app_nil_r. reflexivity. Qed.

Definition cycle_prefix (v : Variant) (w : World) : World :=
  emit [Log (attempt_msg (js_incr (attempts w))); Resolve] (set_attempts (js_incr (attempts w)) w).

(** C10: a native select with no options, or with no option at the start
    index (for instance a lone placeholder), fails without assigning
    [selectedIndex], dispatching anything or logging a selection: the
    cycle only logs the attempt and the match, and leaves the document
    unchanged. *)
Theorem C10_native_select_fails_atomically : forall v cfg w el,
  resolve (targetControlId cfg) (dom w) = Some el ->
  tagName el = "SELECT"%string ->
  (options el = [] \/ (length (options el) <= startIndex (options el))%nat) ->
  handleSelectDropdown el = (false, el, []) /\
  selectFirstOption v cfg w = (emit [Log (found_msg v)] (cycle_prefix v w), false).
Proof.
  intros v cfg w el Hres Htag Hopts.
  assert (Hh : handleSelectDropdown el = (false, el, [])).
  { unfold handleSelectDropdown.
    destruct Hopts as [E|Hle].
    - rewrite E. reflexivity.
    - destruct (Nat.ltb 0 (length (options el))); [|reflexivity].
      replace (Nat.ltb (startIndex (options el)) (length (options el))) with false;
        [reflexivity|].
      symmetry. apply Nat.ltb_ge. exact Hle. }
  split; [exact Hh|].
  unfold selectFirstOption, cycle_prefix. cbn [dom emit set_attempts].
  rewrite Hres, Htag. simpl. rewrite Hh. rewrite emit_nil. reflexivity.
Qed.

Definition placeholder_select : Node :=
  mkNode 7 "SELECT" [("data-control-id", "dropdown-1")%string] "" None 10 10 [mkOption "" ""] (-1).

Lemma C10_native_select_fails_atomically_witness :
  selectFirstOption WithObserver (mkConfig "dropdown-1" (Num 2) 0 0)
    (initial_world [placeholder_select])
  = (emit [Log (found_msg WithObserver)]
       (cycle_prefix WithObserver (initial_world [placeholder_select])), false).
Proof.
  apply (C10_native_select_fails_atomically WithObserver (mkConfig "dropdown-1" (Num 2) 0 0)
           (initial_world [placeholder_select]) placeholder_select);
    [reflexivity | reflexivity | right; simpl; lia].
Defined.

(** C3 (as stated, refuted): in the script of [src/src/App.tsx] reaching
    [maxRetries] does not start the observer phase: with [maxRetries = 1]
    and no dropdown in the page, the first failed attempt leaves no
    observer and no timer. *)
Lemma C3_every_variant_observes_counterexample :
  let w := start RetryOnly (mkConfig "dropdown-1" (Num 1) 500 30000) [] in
  attempts w = 1 /\ observer w = false /\ timers w = [] /\
  last (trace w) Resolve = Log (max_msg RetryOnly).
Proof. vm_compute. repeat split; reflexivity. Qed.

(** C3 (amended): when a cycle fails and the counter is not below
    [maxRetries] (also when [maxRetries] is NaN), the observer scripts of
    [src/unnamed/part_001] and [src/README.md] connect the mutation
    watch and arm the observer timeout; the [src/src/App.tsx] script only
    logs that the maximum was reached and stops. *)
Theorem C3_exhaustion_starts_observer : forall v cfg w w1,
  selectFirstOption v cfg w = (w1, false) ->
  js_lt (attempts w1) (maxRetries cfg) = false ->
  (v = WithObserver ->
     observer (trySelectWithRetry v cfg w) = true /\
     timers (trySelectWithRetry v cfg w) =
       timers w1 ++ [(now w1 + Z.max 0 (observerTimeout cfg), TObserverTimeout)] /\
     trace (trySelectWithRetry v cfg w) = trace w1 ++ [Log (max_msg v)]) /\
  (v = RetryOnly -> trySelectWithRetry v cfg w = emit [Log (max_msg v)] w1).
Proof.
  intros v cfg w w1 Hs Hlt. unfold trySelectWithRetry. rewrite Hs, Hlt.
  split; intros ->; [repeat split | reflexivity].
Qed.

Lemma C3_exhaustion_starts_observer_witness :
  observer (trySelectWithRetry WithObserver (mkConfig "dropdown-1" (Num 1) 500 30000)
              (initial_world [])) = true.
Proof.
  apply (C3_exhaustion_starts_observer WithObserver (mkConfig "dropdown-1" (Num 1) 500 30000)
           (initial_world [])
           (fst (selectFirstOption WithObserver (mkConfig "dropdown-1" (Num 1) 500 30000)
                   (initial_world []))));
    [vm_compute; reflexivity | vm_compute; reflexivity | reflexivity].
Defined.

(** C5: when the resolved element is not a [SELECT], the cycle returns
    [true] at once after clicking it and arming the 200 ms settle timer,
    and the retry loop logs completion without scheduling a retry or an
    observer; the settle callback only appends a click and a log line or
    a single failure log line to the trace (its result is discarded). *)
Theorem C5_custom_widget_provisional_success : forall v cfg w el,
  resolve (targetControlId cfg) (dom w) = Some el ->
  tagName el <> "SELECT"%string ->
  let w1 := schedule 200 TSettle (emit [Click (nid el)]
              (emit [Log (found_msg v)] (cycle_prefix v w))) in
  selectFirstOption v cfg w = (w1, true) /\
  trySelectWithRetry v cfg w = emit [Log success_msg] w1 /\
  (forall w0, fire v cfg TSettle w0 = emit (settle_effects (dom w0)) w0) /\
  (forall d, (exists n lbl, settle_effects d = [Click n; Log (selected_msg lbl)]) \/
             settle_effects d = [Log no_visible_msg]).
Proof.
  intros v cfg w el Hres Htag w1.
  assert (Hs : selectFirstOption v cfg w = (w1, true)).
  { unfold selectFirstOption, w1, cycle_prefix. cbn [dom emit set_attempts].
    rewrite Hres. apply String.eqb_neq in Htag. rewrite Htag. reflexivity. }
  split; [exact Hs|]. split.
  - unfold trySelectWithRetry. rewrite Hs. reflexivity.
  - split; [reflexivity | exact settle_cases].
Qed.

Definition combobox : Node :=
  mkNode 3 "DIV" [("role", "combobox")%string; ("aria-label", "dropdown-1 filter")%string] "" None 50 20 [] 0.

Lemma C5_custom_widget_provisional_success_witness :
  trySelectWithRetry WithObserver (mkConfig "dropdown-1" (Num 2) 0 0) (initial_world [combobox])
  = emit [Log success_msg]
      (schedule 200 TSettle (emit [Click 3]
         (emit [Log (found_msg WithObserver)] (cycle_prefix WithObserver (initial_world [combobox]))))).
Proof.
  apply (C5_custom_widget_provisional_success WithObserver (mkConfig "dropdown-1" (Num 2) 0 0)
           (initial_world [combobox]) combobox);
    [reflexivity | discriminate].
Defined.

Lemma C8_native_select_idempotent_witness :
  handleSelectDropdown (mkNode 1 "SELECT" [] "" None 10 10
                          [mkOption "" ""; mkOption "a" "Alpha"; mkOption "b" "Beta"] (-1))
  = (true, mkNode 1 "SELECT" [] "" None 10 10
             [mkOption "" ""; mkOption "a" "Alpha"; mkOption "b" "Beta"] 1,
     [SetSelectedIndex 1 1; Dispatch 1 "change" true; Dispatch 1 "input" true;
      Log (selected_msg "Alpha")]) /\
  handleSelectDropdown (mkNode 1 "SELECT" [] "" None 10 10
                          [mkOption "" ""; mkOption "a" "Alpha"; mkOption "b" "Beta"] 1)
  = (true, mkNode 1 "SELECT" [] "" None 10 10
             [mkOption "" ""; mkOption "a" "Alpha"; mkOption "b" "Beta"] 1,
     [SetSelectedIndex 1 1; Dispatch 1 "change" true; Dispatch 1 "input" true;
      Log (selected_msg "Alpha")]).
Proof.
  split; [vm_compute; reflexivity|].
  apply (C8_native_select_idempotent
           (mkNode 1 "SELECT" [] "" None 10 10
              [mkOption "" ""; mkOption "a" "Alpha"; mkOption "b" "Beta"] (-1))).
  vm_compute. reflexivity.
Defined.

(** ** Claims about the observer callback *)

Definition count_qualifying (ms : list Mutation) : nat := length (filter qualifying ms).

Lemma selectFirstOption_count : forall v cfg w,
  count_resolves (trace (fst (selectFirstOption v cfg w))) = S (count_resolves (trace w)).
Proof.
  intros v cfg w. pose proof (selectFirstOption_shape v cfg w) as H.
  destruct (selectFirstOption v cfg w) as [w1 ok].
  destruct H as [_ [_ [_ [[es [Et [Ec _]]] _]]]]. simpl.
  rewrite Et, count_resolves_app, Ec. lia.
Qed.

Lemma selectFirstOption_fail_dom : forall v cfg w w1,
  selectFirstOption v cfg w = (w1, false) -> dom w1 = dom w.
Proof.
  intros v cfg w w1 E. pose proof (selectFirstOption_shape v cfg w) as H.
  rewrite E in H. destruct H as [_ [_ [_ [_ [H _]]]]]. apply H. reflexivity.
Qed.

Lemma count_resolves_emit_log : forall s w,
  count_resolves (trace (emit [Log s] w)) = count_resolves (trace w).
Proof.
  intros s w. cbn [trace emit]. rewrite count_resolves_app.
  change (count_resolves [Log s]) with 0%nat. apply Nat.add_0_r.
Qed.

Definition qm : Mutation := mkMutation "childList" 1.

(** C6 (as stated, refuted): a batch of two child-list records that both
    add nodes, delivered while the dropdown is absent, runs the
    Resolve-Select cycle twice, not once. *)
Lemma C6_once_per_batch_counterexample :
  let w0 := mkWorld 0 [] 1 [(30000, TObserverTimeout)] true [] in
  count_resolves (trace (observe_batch WithObserver (mkConfig "dropdown-1" (Num 1) 500 30000)
                           [qm; qm] w0)) = 2%nat /\ (2 <> 1)%nat.
Proof. split; [vm_compute; reflexivity | discriminate]. Qed.

(** C6 (amended): the callback runs the cycle once per qualifying record
    of the batch, in order, and stops after the first cycle that returns
    [true]; since failed cycles leave the document as it is, a batch runs
    it once when the cycle succeeds on the current document and once per
    qualifying record when it does not. *)
Theorem C6_cycles_per_batch : forall v cfg ms w,
  count_resolves (trace (observe_batch v cfg ms w)) =
  (count_resolves (trace w) +
   (if cycle_ok cfg (dom w) then Nat.min 1 (count_qualifying ms)
    else count_qualifying ms))%nat.
Proof.
  intros v cfg ms. induction ms as [|m ms IH]; intros w.
  - cbn -[count_resolves]. destruct (cycle_ok cfg (dom w)); cbn -[count_resolves]; lia.
  - unfold count_qualifying. cbn -[count_resolves selectFirstOption cycle_ok].
    destruct (qualifying m) eqn:Eq.
    + pose proof (selectFirstOption_ok v cfg w) as Hok.
      pose proof (selectFirstOption_count v cfg w) as Hc.
      destruct (selectFirstOption v cfg w) as [w1 ok] eqn:Es. simpl in Hok, Hc.
      subst ok. destruct (cycle_ok cfg (dom w)) eqn:Ec.
      * rewrite count_resolves_emit_log. simpl. rewrite Hc. lia.
      * rewrite IH. rewrite (selectFirstOption_fail_dom v cfg w w1 Es).
        rewrite Ec. unfold count_qualifying. simpl. lia.
    + rewrite IH. reflexivity.
Qed.

(** ** Claims about script generation *)

Definition abc_settings : PluginConfig :=
  mkPluginConfig (Some "dropdown-1"%string) (Some true) None (Some true) (Some "abc"%string).

(** C7 (as stated, refuted): the retry count ['abc'] is not defaulted to
    3: [parseInt('abc', 10)] is NaN and the script bakes in NaN. *)
Lemma C7_non_numeric_defaults_counterexample :
  baked_retries abc_settings = NaN /\ baked_retries abc_settings <> Num 3 /\
  baked_config WithObserver "dropdown-1" abc_settings = Some (mkConfig "dropdown-1" NaN 500 30000).
Proof. split; [vm_compute; reflexivity|]. split; [vm_compute; discriminate | vm_compute; reflexivity]. Qed.

(** After the leading white space, an optional sign and then a digit. *)
Definition numeric_start (s : string) : bool :=
  match s with
  | String c r => if (Ascii.eqb c "-" || Ascii.eqb c "+")%bool then starts_digit r else starts_digit s
  | EmptyString => false
  end.

Definition nbsp : string := String (ascii_of_nat 194) (String (ascii_of_nat 160) EmptyString).

Lemma parse_unsigned_nan : forall neg s, starts_digit s = false -> parse_unsigned neg s = NaN.
Proof.
  intros neg [|c s] H; [reflexivity|]. simpl in H. simpl.
  destruct (digit_val c); [discriminate | reflexivity].
Qed.

(** C7 (amended): a missing or empty target identifier gives the empty
    script; a missing or empty retry field gives [maxRetries = 3]; a
    non-empty retry field with no digit after its leading white space and
    optional sign (such as ['abc'], or white space only) gives
    [maxRetries = NaN]; leading white space is JavaScript's (a no-break
    space before [5] still gives 5).  With NaN the counter is never below
    [maxRetries], so when the dropdown is absent the retry loop gives up
    after a single Resolver call. *)
Theorem C7_settings_parsing :
  (forall v pc g, (targetControl pc = None \/ targetControl pc = Some EmptyString) ->
     generateControlScript v pc g = EmptyString) /\
  (forall v tc pc, literal_ok v tc = true ->
     (retryAttempts pc = None \/ retryAttempts pc = Some EmptyString) ->
     baked_config v tc pc = Some (mkConfig tc (Num 3) 500 30000)) /\
  (forall pc s, retryAttempts pc = Some s -> s <> EmptyString ->
     numeric_start (trim_left s) = false -> baked_retries pc = NaN) /\
  baked_retries abc_settings = NaN /\ parseInt10 (nbsp ++ "5") = Num 5 /\
  (forall v cfg d, maxRetries cfg = NaN -> resolve (targetControlId cfg) d = None ->
     count_resolves (trace (start v cfg d)) = 1%nat /\ In (Log (max_msg v)) (trace (start v cfg d)) /\
     forall p, In p (timers (start v cfg d)) -> snd p <> TRetry).
Proof.
  split; [|split; [|split; [|split; [|split]]]].
  - intros v pc g [E|E]; unfold generateControlScript; rewrite E; reflexivity.
  - intros v tc pc Hl [E|E]; unfold baked_config, baked_retries, or_default; rewrite Hl, E;
      reflexivity.
  - intros pc s E Hne Hn. unfold baked_retries, or_default. rewrite E.
    apply String.eqb_neq in Hne. rewrite Hne.
    unfold parseInt10. destruct (trim_left s) as [|c r]; [reflexivity|].
    unfold numeric_start in Hn.
    destruct (Ascii.eqb c "-") eqn:E1; [apply parse_unsigned_nan; exact Hn|].
    destruct (Ascii.eqb c "+") eqn:E2; apply parse_unsigned_nan; exact Hn.
  - vm_compute. reflexivity.
  - vm_compute. reflexivity.
  - intros v cfg d Hn Hd. unfold start, trySelectWithRetry, selectFirstOption.
    cbn [initial_world emit set_attempts dom attempts trace timers]. rewrite Hd.
    cbn [emit attempts snd fst]. rewrite Hn. cbn [js_lt].
    destruct v; cbn [setupDOMObserver schedule set_observer emit trace timers];
      (split; [reflexivity|]); (split; [apply in_or_app; right; left; reflexivity|]);
      intros p Hp; simpl in Hp; repeat destruct Hp as [<-|Hp]; try contradiction; discriminate.
Qed.

Lemma C7_settings_parsing_witness :
  generateControlScript RetryOnly (mkPluginConfig None None None None None) "" = EmptyString /\
  baked_config WithObserver "dropdown-1" (mkPluginConfig (Some "dropdown-1"%string) None None None None)
    = Some (mkConfig "dropdown-1" (Num 3) 500 30000) /\
  baked_retries (mkPluginConfig None None None None (Some "  "%string)) = NaN /\
  count_resolves (trace (start WithObserver (mkConfig "dropdown-1" NaN 500 30000) [])) = 1%nat.
Proof.
  destruct C7_settings_parsing as [H1 [H2 [H3 [_ [_ H6]]]]].
  split; [apply H1; left; reflexivity|].
  split; [apply H2; [reflexivity | left; reflexivity]|].
  split; [apply (H3 _ "  "%string); [reflexivity | discriminate | reflexivity]|].
  apply (H6 WithObserver (mkConfig "dropdown-1" NaN 500 30000) []); reflexivity.
Defined.

(** ** The timer queue *)

Section Queue.

Variable cost : Z * Task -> nat.

Definition queue_cost (l : list (Z * Task)) : nat :=
  fold_right (fun p acc => (cost p + acc)%nat) 0%nat l.

Lemma take_due_spec : forall m l p r,
  take_due m l = Some (p, r) ->
  In p l /\ (forall x, In x r -> In x l) /\ queue_cost l = (cost p + queue_cost r)%nat.
Proof.
  intros m l. induction l as [|q l IH]; intros p r H; simpl in H; [discriminate|].
  destruct (fst q =? m).
  - inversion H; subst. simpl. auto.
  - destruct (take_due m l) as [[p' r']|] eqn:E; [|discriminate].
    inversion H; subst. destruct (IH p r' eq_refl) as [Hin [Hsub Hc]].
    split; [right; exact Hin|]. split.
    + intros x [<-|Hx]; [left; reflexivity | right; apply Hsub; exact Hx].
    + simpl. rewrite Hc. lia.
Qed.

Lemma pick_timer_spec : forall l p r,
  pick_timer l = Some (p, r) ->
  In p l /\ (forall x, In x r -> In x l) /\ queue_cost l = (cost p + queue_cost r)%nat.
Proof.
  intros l p r. unfold pick_timer. destruct (min_due l); [apply take_due_spec|discriminate].
Qed.

End Queue.

Lemma min_due_in : forall l m, min_due l = Some m -> exists p, In p l /\ fst p = m.
Proof.
  induction l as [|q l IH]; intros m H; [discriminate|]. destruct q as [t k].
  simpl in H.
  destruct (min_due l) as [m'|] eqn:E.
  - injection H as <-. destruct (IH m' eq_refl) as [p [Hin Hp]].
    destruct (Z.min_spec t m') as [[_ ->]|[_ ->]].
    + exists (t, k). split; [left|]; reflexivity.
    + exists p. split; [right|]; assumption.
  - injection H as <-. exists (t, k). split; [left|]; reflexivity.
Qed.

Lemma take_due_some : forall m l p, In p l -> fst p = m -> exists r, take_due m l = Some r.
Proof.
  intros m l. induction l as [|q l IH]; intros p Hin Hp; [destruct Hin|].
  simpl. destruct (fst q =? m) eqn:E; [eauto|].
  destruct Hin as [<-|Hin].
  - rewrite Hp, Z.eqb_refl in E. discriminate.
  - destruct (IH p Hin Hp) as [[q' r'] ->]. eauto.
Qed.

Lemma pick_timer_none : forall l, pick_timer l = None -> l = [].
Proof.
  intros [|q l] H; [reflexivity|]. unfold pick_timer in H.
  destruct (min_due (q :: l)) as [m|] eqn:E.
  - destruct (min_due_in _ _ E) as [p [Hin Hp]].
    destruct (take_due_some m (q :: l) p Hin Hp) as [r Hr]. rewrite Hr in H. discriminate.
  - simpl in E. destruct q, (min_due l); discriminate.
Qed.

Lemma pick_timer_single : forall t k, pick_timer [(t, k)] = Some ((t, k), []).
Proof. intros. unfold pick_timer. simpl. rewrite Z.eqb_refl. reflexivity. Qed.

Lemma step_cases : forall v cfg w env w' env',
  step v cfg w env = Some (w', env') ->
  (exists p rest, pick_timer (timers w) = Some (p, rest) /\ w' = fire_timer v cfg p rest w
                  /\ env' = env) \/
  (exists e, env = e :: env' /\ w' = deliver v cfg e w).
Proof.
  intros v cfg w env w' env' H. unfold step in H.
  destruct (pick_timer (timers w)) as [[p rest]|], env as [|e env0]; try discriminate.
  - inversion H; subst. left. eauto.
  - destruct (fst p <=? ev_at e); inversion H; subst; [left|right]; eauto.
  - inversion H; subst. right. eauto.
Qed.

Lemma step_none : forall v cfg w env,
  step v cfg w env = None <-> (timers w = [] /\ env = []).
Proof.
  intros v cfg w env. unfold step. split.
  - destruct (pick_timer (timers w)) as [[p rest]|] eqn:E, env as [|e env0];
      try discriminate.
    + destruct (fst p <=? ev_at e); discriminate.
    + intros _. split; [apply pick_timer_none; exact E | reflexivity].
  - intros [-> ->]. reflexivity.
Qed.

Lemma marker_free_in : forall v l e, marker_free v l -> marker v e -> ~ In e l.
Proof. intros v l e H Hm Hin. exact (H e Hin Hm). Qed.

Lemma in_app_marker_free : forall v l es e,
  marker_free v es -> marker v e -> In e (l ++ es) -> In e l.
Proof.
  intros v l es e H Hm Hin. apply in_app_or in Hin. destruct Hin as [Hin|Hin]; [exact Hin|].
  exfalso. exact (H e Hin Hm).
Qed.

(** ** Phases of a run

    A run is retrying (one retry timer pending), observing (watch
    connected, its timeout pending) or done (a terminal line logged, no
    watch, no retry pending).  [lim] is the number of attempts the retry
    loop makes: [attempts < maxRetries] is tested after each attempt, so
    [max maxRetries 1] attempts, one with NaN.  The counter is a double:
    from [2 ^ 53] on [attempts++] leaves it unchanged, so the loop ends
    only when [maxRetries] is at most [2 ^ 53] (or NaN, or negative). *)

Definition bounded_retries (cfg : Config) : bool :=
  match maxRetries cfg with
  | Num n => n <=? 2 ^ 53
  | NaN => true
  | PosInf => false
  | NegInf => true
  end.

Definition lim (cfg : Config) : nat :=
  match maxRetries cfg with Num n => Z.to_nat (Z.max n 1) | _ => 1%nat end.

Definition max_split (v : Variant) (cfg : Config) (tr : list Effect) : Prop :=
  exists pre post, tr = pre ++ Log (max_msg v) :: post /\
    count_resolves pre = lim cfg /\ ~ In (Log (max_msg v)) pre.

Definition terminal_logged (v : Variant) (tr : list Effect) : Prop :=
  match v with
  | WithObserver =>
      In (Log success_msg) tr \/ In (Log observer_success_msg) tr \/ In (Log timeout_msg) tr
  | RetryOnly => In (Log success_msg) tr \/ In (Log (max_msg v)) tr
  end.

Record Done (v : Variant) (cfg : Config) (w : World) : Prop := {
  done_observer : observer w = false;
  done_no_retry : forall p, In p (timers w) -> snd p <> TRetry;
  done_terminal : terminal_logged v (trace w);
  done_split : In (Log (max_msg v)) (trace w) -> max_split v cfg (trace w);
  done_timeout_max : In (Log timeout_msg) (trace w) -> In (Log (max_msg v)) (trace w);
  done_pending_max : forall p, In p (timers w) -> snd p = TObserverTimeout ->
                     In (Log (max_msg v)) (trace w) }.

Inductive Phase (v : Variant) (cfg : Config) (w : World) : Prop :=
| PRetrying (t : Z) :
    observer w = false -> timers w = [(t, TRetry)] -> 1 <= attempts w <= 2 ^ 53 ->
    js_lt (attempts w) (maxRetries cfg) = true ->
    (attempts w < 2 ^ 53 -> count_resolves (trace w) = Z.to_nat (attempts w)) ->
    marker_free v (trace w) ->
    Phase v cfg w
| PObserving (t : Z) :
    v = WithObserver -> observer w = true -> timers w = [(t, TObserverTimeout)] ->
    max_split v cfg (trace w) -> ~ In (Log success_msg) (trace w) ->
    ~ In (Log observer_success_msg) (trace w) -> ~ In (Log timeout_msg) (trace w) ->
    Phase v cfg w
| PDone : Done v cfg w -> Phase v cfg w.

Definition budget (cfg : Config) (a : Z) : nat :=
  match maxRetries cfg with Num n => Z.to_nat (n - a) | _ => 0%nat end.

Definition cost (cfg : Config) (a : Z) (p : Z * Task) : nat :=
  match snd p with TRetry => (3 + budget cfg a)%nat | _ => 1%nat end.

(** A bound on the number of event-loop turns left. *)
Definition measure (cfg : Config) (w : World) (env : list EnvEvent) : nat :=
  (2 * length env + queue_cost (cost cfg (attempts w)) (timers w)
   + (if observer w then 1 else 0))%nat.

Lemma max_split_app : forall v cfg tr es, max_split v cfg tr -> max_split v cfg (tr ++ es).
Proof.
  intros v cfg tr es [pre [post [-> [Hc Hn]]]]. exists pre, (post ++ es).
  rewrite <- app_assoc. auto.
Qed.

Lemma max_split_in : forall v cfg tr, max_split v cfg tr -> In (Log (max_msg v)) tr.
Proof.
  intros v cfg tr [pre [post [-> _]]]. apply in_or_app. right. left. reflexivity.
Qed.

Lemma terminal_app : forall v tr es, terminal_logged v tr -> terminal_logged v (tr ++ es).
Proof.
  intros [] tr es H; simpl in *; intuition (auto using in_or_app).
Qed.

Lemma lim_exact : forall cfg a, 0 <= a ->
  (a = 0 \/ js_lt a (maxRetries cfg) = true) ->
  js_lt (a + 1) (maxRetries cfg) = false -> Z.to_nat (a + 1) = lim cfg.
Proof.
  intros cfg a Ha Hpre Hlt. unfold lim. destruct (maxRetries cfg) as [n| | |]; simpl in *.
  - apply Z.ltb_ge in Hlt. destruct Hpre as [->|Hpre].
    + f_equal. lia.
    + apply Z.ltb_lt in Hpre. f_equal. lia.
  - destruct Hpre as [->|Hpre]; [reflexivity | discriminate].
  - discriminate.
  - destruct Hpre as [->|Hpre]; [reflexivity | discriminate].
Qed.

Lemma js_incr_small : forall a, a < 2 ^ 53 -> js_incr a = a + 1.
Proof.
  intros a H. unfold js_incr, round_mag.
  replace (a + 1 <=? 2 ^ 53) with true by (symmetry; apply Z.leb_le; lia). reflexivity.
Qed.

Lemma js_incr_cases : forall a, 0 <= a <= 2 ^ 53 ->
  (a < 2 ^ 53 /\ js_incr a = a + 1) \/ (a = 2 ^ 53 /\ js_incr a = a).
Proof.
  intros a H. destruct (Z.lt_ge_cases a (2 ^ 53)) as [Hl|Hg].
  - left. split; [exact Hl | apply js_incr_small; exact Hl].
  - right. assert (a = 2 ^ 53) by lia. subst a. split; [reflexivity | vm_compute; reflexivity].
Qed.

Lemma queue_cost_no_retry : forall cfg a l,
  (forall p, In p l -> snd p <> TRetry) -> queue_cost (cost cfg a) l = length l.
Proof.
  intros cfg a l. induction l as [|p l IH]; intros H; [reflexivity|].
  simpl. rewrite IH by (intros q Hq; apply H; right; exact Hq).
  unfold cost. destruct (snd p) eqn:E; [exfalso; apply (H p); [left|]; auto | |]; reflexivity.
Qed.

Ltac not_in_msgs :=
  let Hin := fresh "Hin" in
  intros Hin; simpl in Hin;
  repeat (destruct Hin as [Hin|Hin]; [revert Hin|]); try contradiction;
  unfold marker, max_msg, success_msg, observer_success_msg, timeout_msg,
    selected_msg, attempt_msg, retry_msg, found_msg, not_found_msg, no_visible_msg;
  simpl; discriminate.

Lemma marker_free_not_in : forall v tr s,
  marker_free v tr -> marker v (Log s) -> ~ In (Log s) tr.
Proof. intros v tr s H Hm Hin. exact (H _ Hin Hm). Qed.

Lemma trySelectWithRetry_phase : forall v cfg w env,
  observer w = false -> timers w = [] -> 0 <= attempts w <= 2 ^ 53 ->
  (attempts w = 0 \/ js_lt (attempts w) (maxRetries cfg) = true) ->
  (attempts w < 2 ^ 53 -> count_resolves (trace w) = Z.to_nat (attempts w)) ->
  marker_free v (trace w) ->
  Phase v cfg (trySelectWithRetry v cfg w) /\
  (bounded_retries cfg = true ->
   measure cfg (trySelectWithRetry v cfg w) env <= 2 * length env + 2 + budget cfg (attempts w))%nat.
Proof.
  intros v cfg w env Hobs Htim Ha Hpre Hcnt Hmf.
  unfold trySelectWithRetry.
  pose proof (selectFirstOption_shape v cfg w) as Hs.
  destruct (selectFirstOption v cfg w) as [w1 ok].
  destruct Hs as [Hnow [Hatt [Hobs1 [[es [Htr [Hces Hmfes]]] [Hfail Htim1]]]]].
  assert (Hst : (attempts w < 2 ^ 53 /\ attempts w1 = attempts w + 1) \/
                (attempts w = 2 ^ 53 /\ attempts w1 = 2 ^ 53)).
  { rewrite Hatt. destruct (js_incr_cases (attempts w) Ha) as [[H1 H2]|[H1 H2]].
    - left. auto.
    - right. rewrite H2. auto. }
  assert (Hmf1 : marker_free v (trace w1)) by (rewrite Htr; apply marker_free_app; assumption).
  assert (Hc1 : attempts w < 2 ^ 53 -> count_resolves (trace w1) = Z.to_nat (attempts w1)).
  { intros Hl. destruct Hst as [[_ Ha1]|[He _]]; [|lia].
    rewrite Htr, count_resolves_app, (Hcnt Hl), Hces, Ha1. rewrite Z2Nat.inj_add by lia. simpl. lia. }
  destruct ok.
  - (* the cycle returned true *)
    assert (Hnr : forall p, In p (timers w1) -> snd p = TSettle).
    { rewrite Htim in Htim1. destruct Htim1 as [E|[_ E]]; rewrite E; simpl.
      - intros p [].
      - intros p [<-|[]]. reflexivity. }
    split.
    + apply PDone. constructor; cbn [emit trace timers observer].
      * rewrite Hobs1. exact Hobs.
      * intros p Hp. rewrite (Hnr p Hp). discriminate.
      * destruct v; left; apply in_or_app; right; left; reflexivity.
      * intros Hin. exfalso. apply in_app_or in Hin. destruct Hin as [Hin|Hin].
        -- apply (marker_free_not_in v _ (max_msg v) Hmf1); [left; reflexivity | exact Hin].
        -- revert Hin. destruct v; not_in_msgs.
      * intros Hin. exfalso. apply in_app_or in Hin. destruct Hin as [Hin|Hin].
        -- apply (marker_free_not_in v _ timeout_msg Hmf1); [right; right; right; reflexivity | exact Hin].
        -- revert Hin. not_in_msgs.
      * intros p Hp. rewrite (Hnr p Hp). discriminate.
    + intros _. unfold measure. cbn [emit trace timers observer attempts]. rewrite Hobs1, Hobs.
      rewrite queue_cost_no_retry by (intros p Hp; rewrite (Hnr p Hp); discriminate).
      rewrite Htim in Htim1. destruct Htim1 as [E|[_ E]]; rewrite E; simpl; lia.
  - destruct (Hfail eq_refl) as [Ht1 _]. rewrite Htim in Ht1.
    destruct (js_lt (attempts w1) (maxRetries cfg)) eqn:Hlt.
    + (* retry scheduled *)
      split.
      * apply (PRetrying v cfg _ (now w1 + Z.max 0 (retryDelay cfg)));
          cbn [schedule emit trace timers observer attempts now].
        -- rewrite Hobs1. exact Hobs.
        -- rewrite Ht1. reflexivity.
        -- lia.
        -- exact Hlt.
        -- intros Hl. rewrite count_resolves_app, Hc1 by lia. apply Nat.add_0_r.
        -- apply marker_free_app; [exact Hmf1|]. destruct v; show_marker_free.
      * intros Hb. unfold measure. cbn [schedule emit trace timers observer attempts now].
        rewrite Ht1, Hobs1, Hobs. simpl. unfold cost, budget. simpl.
        unfold js_lt in Hlt. unfold bounded_retries in Hb.
        destruct (maxRetries cfg) as [n| | |]; try discriminate.
        apply Z.ltb_lt in Hlt. apply Z.leb_le in Hb. lia.
    + assert (Hl : attempts w < 2 ^ 53).
      { destruct Hst as [[Hl _]|[He He1]]; [exact Hl|].
        destruct Hpre as [Hz|Hpre]; [lia|]. rewrite He1, <- He, Hpre in Hlt. discriminate. }
      assert (Hlim : Z.to_nat (attempts w1) = lim cfg).
      { destruct Hst as [[_ Ha1]|[He _]]; [|lia].
        rewrite Ha1 in Hlt |- *. apply lim_exact; [lia | exact Hpre | exact Hlt]. }
      assert (Hsplit : max_split v cfg (trace w1 ++ [Log (max_msg v)])).
      { exists (trace w1), []. split; [reflexivity|]. split; [rewrite (Hc1 Hl); lia|].
        apply (marker_free_not_in v _ (max_msg v) Hmf1). left. reflexivity. }
      assert (Hno : forall s, marker v (Log s) -> Log s <> Log (max_msg v) ->
                    ~ In (Log s) (trace w1 ++ [Log (max_msg v)])).
      { intros s Hm Hne Hin. apply in_app_or in Hin. destruct Hin as [Hin|[Hin|[]]].
        - exact (marker_free_not_in v _ _ Hmf1 Hm Hin).
        - apply Hne. symmetry. exact Hin. }
      destruct v.
      * split.
        -- apply (PObserving WithObserver cfg _ (now w1 + Z.max 0 (observerTimeout cfg)));
             cbn [setupDOMObserver schedule set_observer emit trace timers observer now];
             [reflexivity | reflexivity | rewrite Ht1; reflexivity | exact Hsplit | | |];
             apply Hno; unfold marker, max_msg, success_msg, observer_success_msg, timeout_msg;
             first [ right; left; reflexivity | right; right; left; reflexivity
                   | right; right; right; reflexivity | discriminate ].
        -- intros _. unfold measure.
           cbn [setupDOMObserver schedule set_observer emit trace timers observer].
           rewrite Ht1. simpl. lia.
      * split.
        -- apply PDone. constructor; cbn [emit trace timers observer].
           ++ rewrite Hobs1. exact Hobs.
           ++ rewrite Ht1. intros p [].
           ++ right. apply in_or_app. right. left. reflexivity.
           ++ intros _. exact Hsplit.
           ++ intros Hin. exfalso. revert Hin. apply Hno; [right; right; right; reflexivity|].
              discriminate.
           ++ rewrite Ht1. intros p [].
        -- intros _. unfold measure. cbn [emit trace timers observer]. rewrite Ht1, Hobs1, Hobs.
           simpl. lia.
Qed.

Lemma no_marker_in_app : forall v tr es s,
  ~ In (Log s) tr -> marker_free v es -> marker v (Log s) -> ~ In (Log s) (tr ++ es).
Proof.
  intros v tr es s Hn Hmf Hm Hin. apply in_app_or in Hin. destruct Hin as [Hin|Hin]; auto.
  exact (Hmf _ Hin Hm).
Qed.

Lemma observe_batch_phase : forall v cfg t ms u,
  v = WithObserver -> observer u = true -> timers u = [(t, TObserverTimeout)] ->
  max_split v cfg (trace u) -> ~ In (Log success_msg) (trace u) ->
  ~ In (Log observer_success_msg) (trace u) -> ~ In (Log timeout_msg) (trace u) ->
  Phase v cfg (observe_batch v cfg ms u) /\
  ((observer (observe_batch v cfg ms u) = true /\ timers (observe_batch v cfg ms u) = timers u) \/
   (observer (observe_batch v cfg ms u) = false /\
    (length (timers (observe_batch v cfg ms u)) <= 2)%nat /\
    (forall p, In p (timers (observe_batch v cfg ms u)) -> snd p <> TRetry))).
Proof.
  intros v cfg t ms. induction ms as [|m ms IH]; intros u Hv Hobs Htim Hsp Hs Ho Ht.
  - simpl. split; [apply (PObserving v cfg u t); assumption | left; auto].
  - simpl. destruct (qualifying m); [|apply IH; assumption].
    pose proof (selectFirstOption_shape v cfg u) as Hsh.
    destruct (selectFirstOption v cfg u) as [u1 ok].
    destruct Hsh as [_ [_ [Hobs1 [[es [Htr [_ Hmfes]]] [Hfail Htim1]]]]].
    destruct ok.
    + assert (Hnr : forall p, In p (timers u1) -> snd p <> TRetry).
      { rewrite Htim in Htim1. destruct Htim1 as [E|[_ E]]; rewrite E; simpl;
          intros p Hp; repeat destruct Hp as [<-|Hp]; try contradiction; discriminate. }
      assert (Hsp1 : max_split v cfg (trace u1 ++ [Log observer_success_msg])).
      { rewrite Htr, <- app_assoc. apply max_split_app. exact Hsp. }
      split.
      * apply PDone. constructor; cbn [emit set_observer trace timers observer].
        -- reflexivity.
        -- exact Hnr.
        -- subst v. right. left. apply in_or_app. right. left. reflexivity.
        -- intros _. exact Hsp1.
        -- intros _. apply max_split_in with (cfg := cfg). exact Hsp1.
        -- intros _ _ _. apply max_split_in with (cfg := cfg). exact Hsp1.
      * right. cbn [emit set_observer trace timers observer]. split; [reflexivity|].
        split; [|exact Hnr].
        rewrite Htim in Htim1. destruct Htim1 as [E|[_ E]]; rewrite E; simpl; lia.
    + destruct (Hfail eq_refl) as [Ht1 _].
      destruct (IH u1 Hv (eq_trans Hobs1 Hobs) (eq_trans Ht1 Htim)) as [IH1 IH2].
      * rewrite Htr. apply max_split_app. exact Hsp.
      * rewrite Htr. apply no_marker_in_app with (v := v); auto. right; left; reflexivity.
      * rewrite Htr. apply no_marker_in_app with (v := v); auto. right; right; left; reflexivity.
      * rewrite Htr. apply no_marker_in_app with (v := v); auto. right; right; right; reflexivity.
      * split; [exact IH1|]. rewrite Ht1 in IH2. exact IH2.
Qed.

(** Once done, a run stays done, never resolves again, and every turn
    lowers the measure. *)
Lemma done_step : forall v cfg w env w' env',
  Done v cfg w -> step v cfg w env = Some (w', env') ->
  Done v cfg w' /\ count_resolves (trace w') = count_resolves (trace w) /\
  (measure cfg w' env' < measure cfg w env)%nat.
Proof.
  intros v cfg w env w' env' D Hstep.
  destruct (step_cases v cfg w env w' env' Hstep) as [[p [rest [Hp [-> ->]]]]|[e [-> ->]]].
  - destruct (pick_timer_spec (cost cfg (attempts w)) _ _ _ Hp) as [Hin [Hsub Hcost]].
    pose proof (done_no_retry _ _ _ D p Hin) as Hnr.
    unfold fire_timer. destruct p as [tp k]. simpl snd in *.
    destruct k; [contradiction| |].
    + (* the settle callback *)
      cbn [fire]. split; [|split].
      * constructor; cbn [emit set_timers set_now trace timers observer].
        -- exact (done_observer _ _ _ D).
        -- intros q Hq. apply (done_no_retry _ _ _ D). apply Hsub. exact Hq.
        -- apply terminal_app. exact (done_terminal _ _ _ D).
        -- intros Hm. apply max_split_app. apply (done_split _ _ _ D).
           eapply (in_app_marker_free v _ _ _ (settle_marker_free v _)); [left; reflexivity|].
           exact Hm.
        -- intros Hm. apply in_or_app. left. apply (done_timeout_max _ _ _ D).
           eapply (in_app_marker_free v _ _ _ (settle_marker_free v _));
             [right; right; right; reflexivity|]. exact Hm.
        -- intros q Hq Hk. apply in_or_app. left.
           apply (done_pending_max _ _ _ D q); [apply Hsub; exact Hq | exact Hk].
      * cbn [emit set_timers set_now trace]. rewrite count_resolves_app, settle_count. lia.
      * unfold measure. cbn [emit set_timers set_now trace timers observer attempts].
        rewrite Hcost. change (cost cfg (attempts w) (tp, TSettle)) with 1%nat. lia.
    + (* the observer timeout *)
      cbn [fire]. split; [|split].
      * constructor; cbn [emit set_observer set_timers set_now trace timers observer].
        -- reflexivity.
        -- intros q Hq. apply (done_no_retry _ _ _ D). apply Hsub. exact Hq.
        -- apply terminal_app. exact (done_terminal _ _ _ D).
        -- intros Hm. apply max_split_app. apply (done_split _ _ _ D).
           apply in_app_or in Hm. destruct Hm as [Hm|[Hm|[]]]; [exact Hm|].
           revert Hm. destruct v; not_in_msgs.
        -- intros _. apply in_or_app. left.
           apply (done_pending_max _ _ _ D (tp, TObserverTimeout)); [exact Hin|reflexivity].
        -- intros q Hq Hk. apply in_or_app. left.
           apply (done_pending_max _ _ _ D q); [apply Hsub; exact Hq | exact Hk].
      * cbn [emit set_observer set_timers set_now trace]. rewrite count_resolves_app.
        apply Nat.add_0_r.
      * unfold measure. cbn [emit set_observer set_timers set_now trace timers observer attempts].
        rewrite Hcost, (done_observer _ _ _ D).
        change (cost cfg (attempts w) (tp, TObserverTimeout)) with 1%nat. lia.
  - unfold deliver. cbn [set_dom set_now observer]. rewrite (done_observer _ _ _ D).
    split; [|split].
    + constructor; cbn [set_dom set_now trace timers observer];
        [exact (done_observer _ _ _ D) | exact (done_no_retry _ _ _ D)
        | exact (done_terminal _ _ _ D) | exact (done_split _ _ _ D)
        | exact (done_timeout_max _ _ _ D) | exact (done_pending_max _ _ _ D)].
    + reflexivity.
    + unfold measure. cbn [set_dom set_now timers observer attempts length].
      rewrite (done_observer _ _ _ D). lia.
Qed.

Lemma step_phase : forall v cfg w env w' env',
  Phase v cfg w -> step v cfg w env = Some (w', env') ->
  Phase v cfg w' /\ (bounded_retries cfg = true -> measure cfg w' env' < measure cfg w env)%nat.
Proof.
  intros v cfg w env w' env' Hph Hstep.
  destruct Hph as [t Hobs Htim Ha Hlt Hcnt Hmf | t Hv Hobs Htim Hsp Hs Ho Ht | D].
  - (* retrying *)
    destruct (step_cases v cfg w env w' env' Hstep) as [[p [rest [Hp [-> ->]]]]|[e [-> ->]]].
    + rewrite Htim, pick_timer_single in Hp. injection Hp as <- <-.
      unfold fire_timer. cbn [fst snd fire].
      destruct (trySelectWithRetry_phase v cfg
                  (set_timers [] (set_now (Z.max (now w) t) w)) env)
        as [Hph' Hm]; cbn [set_timers set_now observer timers attempts trace]; auto; try lia.
      split; [exact Hph'|]. intros Hb. eapply Nat.le_lt_trans; [exact (Hm Hb)|].
      unfold measure. rewrite Htim, Hobs. cbn [set_timers set_now attempts]. simpl. lia.
    + unfold deliver. cbn [set_dom set_now observer]. rewrite Hobs. split.
      * apply (PRetrying v cfg _ t); cbn [set_dom set_now observer timers attempts trace]; auto.
      * intros _. unfold measure. cbn [set_dom set_now observer timers attempts length]. lia.
  - (* observing *)
    destruct (step_cases v cfg w env w' env' Hstep) as [[p [rest [Hp [-> ->]]]]|[e [-> ->]]].
    + rewrite Htim, pick_timer_single in Hp. injection Hp as <- <-.
      unfold fire_timer. cbn [fst snd fire]. split.
      * apply PDone. constructor; cbn [emit set_observer set_timers set_now trace timers observer].
        -- reflexivity.
        -- intros q [].
        -- subst v. right. right. apply in_or_app. right. left. reflexivity.
        -- intros _. apply max_split_app. exact Hsp.
        -- intros _. apply in_or_app. left. apply max_split_in with (cfg := cfg). exact Hsp.
        -- intros q [].
      * intros _. unfold measure. rewrite Htim, Hobs.
        cbn [emit set_observer set_timers set_now trace timers observer attempts]. simpl. lia.
    + unfold deliver. cbn [set_dom set_now observer]. rewrite Hobs.
      destruct (observe_batch_phase v cfg t (ev_batch e)
                  (set_dom (ev_mutate e (dom w)) (set_now (Z.max (now w) (ev_at e)) w)))
        as [Hph' Hm]; cbn [set_dom set_now observer timers trace]; auto.
      split; [exact Hph'|]. intros _.
      unfold measure. rewrite Htim, Hobs. simpl length.
      destruct Hm as [[Ho' Ht']|[Ho' [Hl Hnr]]]; rewrite Ho'.
      * rewrite Ht'. cbn [set_dom set_now timers]. rewrite Htim. simpl. lia.
      * rewrite queue_cost_no_retry by exact Hnr. simpl. lia.
  - destruct (done_step v cfg w env w' env' D Hstep) as [D' [_ Hm]].
    split; [apply PDone; exact D' | intros _; exact Hm].
Qed.

Lemma start_phase : forall v cfg d env,
  Phase v cfg (start v cfg d) /\
  (bounded_retries cfg = true -> measure cfg (start v cfg d) env <= 2 * length env + 2 + budget cfg 0)%nat.
Proof.
  intros v cfg d env. unfold start.
  apply (trySelectWithRetry_phase v cfg (initial_world d) env); simpl; auto; try lia.
  destruct v; show_marker_free.
Qed.

Lemma run_phase : forall v cfg f w env,
  Phase v cfg w -> Phase v cfg (fst (run v cfg f w env)).
Proof.
  intros v cfg f. induction f as [|f IH]; intros w env H; [exact H|].
  simpl. destruct (step v cfg w env) as [[w' env']|] eqn:E; [|exact H].
  apply IH. exact (proj1 (step_phase v cfg w env w' env' H E)).
Qed.

Lemma run_quiescent : forall v cfg f w env,
  bounded_retries cfg = true -> Phase v cfg w -> (measure cfg w env <= f)%nat ->
  step v cfg (fst (run v cfg f w env)) (snd (run v cfg f w env)) = None.
Proof.
  intros v cfg f w0 env0 Hb. revert w0 env0. induction f as [|f IH]; intros w env H Hm.
  - simpl. destruct (step v cfg w env) as [[w' env']|] eqn:E; [|reflexivity].
    exfalso. destruct (step_phase v cfg w env w' env' H E) as [_ Hlt]. specialize (Hlt Hb). lia.
  - simpl. destruct (step v cfg w env) as [[w' env']|] eqn:E; [|simpl; exact E].
    destruct (step_phase v cfg w env w' env' H E) as [H' Hlt]. specialize (Hlt Hb).
    apply IH; [exact H' | lia].
Qed.

Lemma phase_quiescent_done : forall v cfg w,
  Phase v cfg w -> timers w = [] -> Done v cfg w.
Proof.
  intros v cfg w H Ht. destruct H as [t _ Htim | t _ _ Htim | D];
    [rewrite Ht in Htim; discriminate | rewrite Ht in Htim; discriminate | exact D].
Qed.

Lemma phase_terminal_done : forall v cfg w,
  Phase v cfg w -> terminal_logged v (trace w) -> Done v cfg w.
Proof.
  intros v cfg w H Ht. destruct H as [t _ _ _ _ _ Hmf | t Hv _ _ _ Hs Ho Hto | D]; [| |exact D].
  - exfalso. destruct v; simpl in Ht;
      repeat destruct Ht as [Ht|Ht];
      eapply marker_free_not_in; try exact Hmf; try exact Ht; unfold marker; auto.
  - exfalso. subst v. simpl in Ht. tauto.
Qed.

Lemma done_run : forall v cfg f w env,
  Done v cfg w ->
  Done v cfg (fst (run v cfg f w env)) /\
  count_resolves (trace (fst (run v cfg f w env))) = count_resolves (trace w).
Proof.
  intros v cfg f. induction f as [|f IH]; intros w env D; [split; [exact D|reflexivity]|].
  simpl. destruct (step v cfg w env) as [[w' env']|] eqn:E; [|split; [exact D|reflexivity]].
  destruct (done_step v cfg w env w' env' D E) as [D' [Hc _]].
  destruct (IH w' env' D') as [D'' Hc']. split; [exact D''|]. rewrite Hc', Hc. reflexivity.
Qed.

(** ** Runs in which the dropdown never appears *)

(** Page changes that never make the target resolvable. *)
Definition not_found_env (id : string) (env : list EnvEvent) : Prop :=
  forall e, In e env -> forall d, resolve id d = None -> resolve id (ev_mutate e d) = None.

Definition NF (cfg : Config) (w : World) : Prop :=
  resolve (targetControlId cfg) (dom w) = None /\
  ~ In (Log success_msg) (trace w) /\ ~ In (Log observer_success_msg) (trace w).

Lemma NF_grow : forall cfg w w' es,
  NF cfg w -> dom w' = dom w -> trace w' = trace w ++ es ->
  ~ In (Log success_msg) es -> ~ In (Log observer_success_msg) es -> NF cfg w'.
Proof.
  intros cfg w w' es [Hr [Hs Ho]] Hd Ht Hs' Ho'. unfold NF. rewrite Hd, Ht.
  split; [exact Hr|]. split; intros Hin; apply in_app_or in Hin; tauto.
Qed.

Lemma selectFirstOption_none : forall v cfg w,
  resolve (targetControlId cfg) (dom w) = None ->
  selectFirstOption v cfg w = (emit [Log not_found_msg] (cycle_prefix v w), false).
Proof.
  intros v cfg w H. unfold selectFirstOption, cycle_prefix. cbn [dom emit set_attempts].
  rewrite H. reflexivity.
Qed.

Lemma tsr_nf : forall v cfg w, NF cfg w -> NF cfg (trySelectWithRetry v cfg w).
Proof.
  intros v cfg w Hn. unfold trySelectWithRetry.
  rewrite (selectFirstOption_none v cfg w (proj1 Hn)).
  destruct (js_lt _ _); [|destruct v];
    (eapply NF_grow;
     [exact Hn | reflexivity | cbn; rewrite <- !app_assoc; reflexivity | not_in_msgs | not_in_msgs]).
Qed.

Lemma observe_batch_nf : forall v cfg ms u, NF cfg u -> NF cfg (observe_batch v cfg ms u).
Proof.
  intros v cfg ms. induction ms as [|m ms IH]; intros u Hn; cbn [observe_batch]; [exact Hn|].
  destruct (qualifying m); [|apply IH; exact Hn].
  rewrite (selectFirstOption_none v cfg u (proj1 Hn)). apply IH.
  eapply NF_grow;
    [exact Hn | reflexivity | cbn; rewrite <- !app_assoc; reflexivity | not_in_msgs | not_in_msgs].
Qed.

Lemma fire_nf : forall v cfg k w, NF cfg w -> NF cfg (fire v cfg k w).
Proof.
  intros v cfg [] w Hn; cbn [fire].
  - apply tsr_nf. exact Hn.
  - eapply NF_grow; [exact Hn | reflexivity | reflexivity | |];
      apply (marker_free_not_in v); [apply settle_marker_free | unfold marker; auto
                                     | apply settle_marker_free | unfold marker; auto].
  - eapply NF_grow; [exact Hn | reflexivity | reflexivity | not_in_msgs | not_in_msgs].
Qed.

Lemma step_nf : forall v cfg w env w' env',
  NF cfg w -> not_found_env (targetControlId cfg) env ->
  step v cfg w env = Some (w', env') ->
  NF cfg w' /\ not_found_env (targetControlId cfg) env'.
Proof.
  intros v cfg w env w' env' Hn He Hs.
  destruct (step_cases v cfg w env w' env' Hs) as [[p [rest [_ [-> ->]]]]|[e [-> ->]]].
  - split; [|exact He]. unfold fire_timer. apply fire_nf.
    eapply NF_grow with (es := []);
      [exact Hn | reflexivity | cbn [trace set_timers set_now]; rewrite app_nil_r; reflexivity
      | intros [] | intros []].
  - split; [|intros e' He'; apply He; right; exact He'].
    assert (H1 : NF cfg (set_dom (ev_mutate e (dom w)) (set_now (Z.max (now w) (ev_at e)) w))).
    { destruct Hn as [Hr Hrest]. unfold NF. cbn [set_dom set_now dom trace].
      split; [apply He; [left; reflexivity | exact Hr] | exact Hrest]. }
    unfold deliver. cbn [set_dom set_now observer].
    destruct (observer w); [apply observe_batch_nf|]; exact H1.
Qed.

Lemma run_nf : forall v cfg f w env,
  NF cfg w -> not_found_env (targetControlId cfg) env -> NF cfg (fst (run v cfg f w env)).
Proof.
  intros v cfg f. induction f as [|f IH]; intros w env Hn He; [exact Hn|].
  simpl. destruct (step v cfg w env) as [[w' env']|] eqn:E; [|exact Hn].
  destruct (step_nf v cfg w env w' env' Hn He E) as [Hn' He']. apply IH; assumption.
Qed.

Lemma start_nf : forall v cfg d,
  resolve (targetControlId cfg) d = None -> NF cfg (start v cfg d).
Proof.
  intros v cfg d H. unfold start. apply tsr_nf.
  split; [exact H|]. cbn [initial_world trace]. unfold start_msg.
  split; not_in_msgs.
Qed.

(** With enough fuel every run drains: no page change, no timer left, and
    the run is done. *)
Lemma script_final : forall v cfg d env,
  bounded_retries cfg = true ->
  snd (script_run v cfg (measure cfg (start v cfg d) env) d env) = [] /\
  timers (fst (script_run v cfg (measure cfg (start v cfg d) env) d env)) = [] /\
  Done v cfg (fst (script_run v cfg (measure cfg (start v cfg d) env) d env)).
Proof.
  intros v cfg d env Hb. unfold script_run.
  destruct (start_phase v cfg d env) as [Hp _].
  pose proof (run_quiescent v cfg _ _ env Hb Hp (le_n _)) as Hq.
  apply step_none in Hq. destruct Hq as [Ht He].
  split; [exact He|]. split; [exact Ht|].
  apply phase_quiescent_done; [apply run_phase; exact Hp | exact Ht].
Qed.

(** Before the observer starts, i.e. before the line that ends the retry
    phase, the loop has run every trace prefix up to that line. *)
Lemma phase_max_split : forall v cfg w,
  Phase v cfg w -> In (Log (max_msg v)) (trace w) -> max_split v cfg (trace w).
Proof.
  intros v cfg w H Hin. destruct H as [t _ _ _ _ _ Hmf | t _ _ _ Hsp _ _ _ | D].
  - exfalso. apply (marker_free_not_in v (trace w) (max_msg v));
      [exact Hmf | unfold marker; auto | exact Hin].
  - exact Hsp.
  - exact (done_split _ _ _ D Hin).
Qed.

(** ** The observer timeout is never cleared

    While the watch is connected its timeout is pending; when the
    observer succeeds the timeout stays pending until it fires and logs
    its line after the success line. *)

Definition timeout_pending (w : World) : Prop := exists t, In (t, TObserverTimeout) (timers w).

Definition timeout_after_success (tr : list Effect) : Prop :=
  exists pre mid post, tr = pre ++ Log observer_success_msg :: mid ++ Log timeout_msg :: post.

Definition TJ (w : World) : Prop :=
  (observer w = true -> timeout_pending w) /\
  (In (Log observer_success_msg) (trace w) -> timeout_pending w \/ timeout_after_success (trace w)).

Lemma timeout_after_success_app : forall tr es,
  timeout_after_success tr -> timeout_after_success (tr ++ es).
Proof.
  intros tr es [pre [mid [post ->]]]. exists pre, mid, (post ++ es).
  rewrite <- app_assoc. simpl. rewrite <- app_assoc. reflexivity.
Qed.

Lemma TJ_grow : forall w w' es,
  TJ w -> (forall x, In x (timers w) -> In x (timers w')) -> trace w' = trace w ++ es ->
  ~ In (Log observer_success_msg) es ->
  (observer w' = true -> observer w = true \/ timeout_pending w') -> TJ w'.
Proof.
  intros w w' es [J1 J2] Hsub Htr Hn Ho. split.
  - intros H. destruct (Ho H) as [H0|P]; [|exact P].
    destruct (J1 H0) as [t Ht]. exists t. apply Hsub. exact Ht.
  - intros Hin. rewrite Htr in Hin. apply in_app_or in Hin. destruct Hin as [Hin|Hin]; [|contradiction].
    destruct (J2 Hin) as [[t Ht]|A].
    + left. exists t. apply Hsub. exact Ht.
    + right. rewrite Htr. apply timeout_after_success_app. exact A.
Qed.

Lemma in_app_l : forall (A : Type) (l r : list A) x, In x l -> In x (l ++ r).
Proof. intros. apply in_or_app. left. assumption. Qed.

Lemma selectFirstOption_TJ : forall v cfg w,
  TJ w -> TJ (fst (selectFirstOption v cfg w)) /\
  (forall x, In x (timers w) -> In x (timers (fst (selectFirstOption v cfg w)))) /\
  observer (fst (selectFirstOption v cfg w)) = observer w.
Proof.
  intros v cfg w J. pose proof (selectFirstOption_shape v cfg w) as Hs.
  destruct (selectFirstOption v cfg w) as [w1 ok]. simpl fst.
  destruct Hs as [_ [_ [Ho [[es [Htr [_ Hmf]]] [_ Ht]]]]].
  assert (Hsub : forall x, In x (timers w) -> In x (timers w1)).
  { intros x Hx. destruct Ht as [E|[_ E]]; rewrite E; [exact Hx | apply in_app_l; exact Hx]. }
  split; [|split; [exact Hsub | exact Ho]].
  apply (TJ_grow w w1 es J Hsub Htr).
  - intros Hin. exact (Hmf _ Hin (or_intror (or_intror (or_introl eq_refl)))).
  - intros H. left. rewrite <- Ho. exact H.
Qed.

Lemma tsr_TJ : forall v cfg w, TJ w -> TJ (trySelectWithRetry v cfg w).
Proof.
  intros v cfg w J. destruct (selectFirstOption_TJ v cfg w J) as [J1 [Hsub Ho]].
  unfold trySelectWithRetry. destruct (selectFirstOption v cfg w) as [w1 ok]. simpl fst in *.
  destruct ok.
  - apply (TJ_grow w1 _ [Log success_msg] J1); [intros x Hx; exact Hx | reflexivity | not_in_msgs |].
    intros H. left. exact H.
  - destruct (js_lt (attempts w1) (maxRetries cfg)).
    + apply (TJ_grow w1 _ [Log (retry_msg cfg (attempts w1))] J1);
        [intros x Hx; apply in_app_l; exact Hx | reflexivity | not_in_msgs |].
      intros H. left. exact H.
    + destruct v.
      * apply (TJ_grow w1 _ [Log (max_msg WithObserver)] J1);
          [intros x Hx; apply in_app_l; exact Hx | reflexivity | not_in_msgs |].
        intros _. right. eexists. apply in_or_app. right. left. reflexivity.
      * apply (TJ_grow w1 _ [Log (max_msg RetryOnly)] J1);
          [intros x Hx; exact Hx | reflexivity | not_in_msgs |].
        intros H. left. exact H.
Qed.

Lemma observe_batch_TJ : forall v cfg ms u,
  TJ u -> observer u = true -> TJ (observe_batch v cfg ms u).
Proof.
  intros v cfg ms. induction ms as [|m ms IH]; intros u J Ho; cbn [observe_batch]; [exact J|].
  destruct (qualifying m); [|apply IH; assumption].
  destruct (selectFirstOption_TJ v cfg u J) as [J1 [Hsub Ho1]].
  destruct (selectFirstOption v cfg u) as [u1 ok]. simpl fst in *.
  destruct ok.
  - destruct (proj1 J Ho) as [t Ht]. split.
    + cbn [emit set_observer observer]. discriminate.
    + intros _. left. exists t. cbn [emit set_observer timers]. apply Hsub. exact Ht.
  - apply IH; [exact J1 | rewrite Ho1; exact Ho].
Qed.

Lemma take_due_other : forall m l p r,
  take_due m l = Some (p, r) -> forall x, In x l -> x = p \/ In x r.
Proof.
  intros m l. induction l as [|q l IH]; intros p r H x Hx; simpl in H; [discriminate|].
  destruct (fst q =? m).
  - inversion H; subst. destruct Hx as [<-|Hx]; [left; reflexivity | right; exact Hx].
  - destruct (take_due m l) as [[p' r']|] eqn:E; [|discriminate].
    inversion H; subst. destruct Hx as [<-|Hx]; [right; left; reflexivity|].
    destruct (IH p r' eq_refl x Hx) as [<-|Hx']; [left; reflexivity | right; right; exact Hx'].
Qed.

Lemma pick_timer_other : forall l p r,
  pick_timer l = Some (p, r) -> forall x, In x l -> x = p \/ In x r.
Proof.
  intros l p r. unfold pick_timer. destruct (min_due l); [apply take_due_other | discriminate].
Qed.

Lemma step_TJ : forall v cfg w env w' env',
  TJ w -> step v cfg w env = Some (w', env') -> TJ w'.
Proof.
  intros v cfg w env w' env' J Hstep.
  destruct (step_cases v cfg w env w' env' Hstep) as [[p [rest [Hp [-> ->]]]]|[e [-> ->]]].
  - pose proof (pick_timer_other _ _ _ Hp) as Hother.
    unfold fire_timer. destruct p as [tp k]. simpl snd.
    set (w0 := set_timers rest (set_now (Z.max (now w) tp) w)).
    assert (J0 : k <> TObserverTimeout -> TJ w0).
    { intros Hk. destruct J as [J1 J2]. split.
      - intros H. destruct (J1 H) as [t Ht]. exists t. cbn [w0 set_timers set_now timers].
        destruct (Hother _ Ht) as [E|E]; [|exact E]. injection E as _ E. congruence.
      - intros H. destruct (J2 H) as [[t Ht]|A]; [left|right; exact A].
        exists t. cbn [w0 set_timers set_now timers].
        destruct (Hother _ Ht) as [E|E]; [|exact E]. injection E as _ E. congruence. }
    destruct k; cbn [fire].
    + apply tsr_TJ. apply J0. discriminate.
    + apply (TJ_grow w0 _ (settle_effects (dom w0)) (J0 ltac:(discriminate)));
        [intros x Hx; exact Hx | reflexivity | |intros H; left; exact H].
      apply (marker_free_not_in WithObserver); [apply settle_marker_free | unfold marker; auto].
    + split.
      * cbn [emit set_observer observer]. discriminate.
      * intros Hin. right. cbn [emit set_observer set_timers set_now trace] in Hin |- *.
        apply in_app_or in Hin. destruct Hin as [Hin|[Hin|[]]]; [|discriminate Hin].
        apply in_split in Hin. destruct Hin as [pre [mid E]]. rewrite E.
        exists pre, mid, []. rewrite <- app_assoc. reflexivity.
  - unfold deliver.
    set (w1 := set_dom (ev_mutate e (dom w)) (set_now (Z.max (now w) (ev_at e)) w)).
    assert (J1 : TJ w1) by exact J.
    destruct (observer w1) eqn:Ho; [apply observe_batch_TJ; assumption | exact J1].
Qed.

Lemma run_TJ : forall v cfg f w env, TJ w -> TJ (fst (run v cfg f w env)).
Proof.
  intros v cfg f. induction f as [|f IH]; intros w env J; [exact J|].
  simpl. destruct (step v cfg w env) as [[w' env']|] eqn:E; [|exact J].
  apply IH. exact (step_TJ v cfg w env w' env' J E).
Qed.

Lemma start_TJ : forall v cfg d, TJ (start v cfg d).
Proof.
  intros v cfg d. unfold start. apply tsr_TJ. split.
  - cbn. discriminate.
  - intros Hin. exfalso. revert Hin. cbn [initial_world trace]. unfold start_msg. not_in_msgs.
Qed.

(** ** Retrying for ever

    With [maxRetries] above [2 ^ 53] (or Infinity) the counter, which
    stops growing at [2 ^ 53], stays below it, and a run in which the
    dropdown never appears keeps a retry pending. *)

Definition Forever (v : Variant) (cfg : Config) (w : World) : Prop :=
  observer w = false /\ (exists t, timers w = [(t, TRetry)]) /\
  1 <= attempts w <= 2 ^ 53 /\ resolve (targetControlId cfg) (dom w) = None /\
  marker_free v (trace w).

Lemma unbounded_lt : forall cfg a,
  bounded_retries cfg = false -> a <= 2 ^ 53 -> js_lt a (maxRetries cfg) = true.
Proof.
  intros cfg a Hb Ha. unfold bounded_retries in Hb. unfold js_lt.
  destruct (maxRetries cfg) as [n| | |]; try discriminate; [|reflexivity].
  apply Z.leb_gt in Hb. apply Z.ltb_lt. lia.
Qed.

Lemma tsr_forever : forall v cfg w,
  bounded_retries cfg = false -> observer w = false -> timers w = [] ->
  0 <= attempts w <= 2 ^ 53 -> resolve (targetControlId cfg) (dom w) = None ->
  marker_free v (trace w) -> Forever v cfg (trySelectWithRetry v cfg w).
Proof.
  intros v cfg w Hb Ho Ht Ha Hr Hmf. unfold trySelectWithRetry.
  rewrite (selectFirstOption_none v cfg w Hr). unfold cycle_prefix.
  cbn [emit set_attempts attempts].
  destruct (js_incr_cases (attempts w) Ha) as [[Hl E]|[Hl E]]; rewrite E;
    (rewrite unbounded_lt by (exact Hb || lia));
    (split; [cbn; exact Ho|]); (split; [cbn; rewrite Ht; eexists; reflexivity|]);
    (split; [cbn; lia|]); (split; [cbn; exact Hr|]);
    cbn [schedule emit trace];
    rewrite <- !app_assoc; apply marker_free_app; [exact Hmf| |exact Hmf|];
    destruct v; show_marker_free.
Qed.

Lemma step_forever : forall v cfg w env w' env',
  bounded_retries cfg = false -> Forever v cfg w -> not_found_env (targetControlId cfg) env ->
  step v cfg w env = Some (w', env') ->
  Forever v cfg w' /\ not_found_env (targetControlId cfg) env'.
Proof.
  intros v cfg w env w' env' Hb [Ho [[t Ht] [Ha [Hr Hmf]]]] He Hstep.
  destruct (step_cases v cfg w env w' env' Hstep) as [[p [rest [Hp [-> ->]]]]|[e [-> ->]]].
  - rewrite Ht, pick_timer_single in Hp. injection Hp as <- <-. split; [|exact He].
    unfold fire_timer. cbn [fst snd fire].
    apply tsr_forever; cbn [set_timers set_now observer timers attempts dom trace];
      auto; lia.
  - split; [|intros e' He'; apply He; right; exact He'].
    unfold deliver. cbn [set_dom set_now observer]. rewrite Ho.
    split; [exact Ho|]. split; [exists t; exact Ht|]. split; [exact Ha|].
    split; [apply He; [left; reflexivity | exact Hr] | exact Hmf].
Qed.

Lemma run_forever : forall v cfg f w env,
  bounded_retries cfg = false -> Forever v cfg w -> not_found_env (targetControlId cfg) env ->
  Forever v cfg (fst (run v cfg f w env)).
Proof.
  intros v cfg f. induction f as [|f IH]; intros w env Hb H He; [exact H|].
  simpl. destruct (step v cfg w env) as [[w' env']|] eqn:E; [|exact H].
  destruct (step_forever v cfg w env w' env' Hb H He E) as [H' He']. apply IH; assumption.
Qed.

(** ** Scenarios *)

Definition cfg_two : Config := mkConfig "dropdown-1" (Num 2) 0 0.

Definition cfg_late : Config := mkConfig "dropdown-1" (Num 1) 500 1000.

Definition sel_target : Node :=
  mkNode 1 "SELECT" [("data-control-id", "dropdown-1")%string] "" None 10 10
    [mkOption "" ""; mkOption "a" "Alpha"; mkOption "b" "Beta"] (-1).

(** The select is inserted 100 ms into the run, with one child-list record. *)
Definition late_select_event : EnvEvent :=
  mkEnvEvent 100 (fun d => app d [sel_target]) [qm].

(** C1 (as stated, refuted): with [maxRetries = 2] and no dropdown ever
    present, the retry phase ends after 2 Resolver invocations, not 3. *)
Lemma C1_n_plus_one_counterexample :
  ~ (forall pre post,
       trace (fst (script_run WithObserver cfg_two 10 [] [])) = pre ++ Log (max_msg WithObserver) :: post ->
       ~ In (Log (max_msg WithObserver)) pre -> count_resolves pre = 3%nat).
Proof.
  intros H.
  assert (Hc : count_resolves [Log start_msg; Log (attempt_msg 1); Resolve; Log not_found_msg;
      Log (retry_msg cfg_two 1); Log (attempt_msg 2); Resolve; Log not_found_msg] = 3%nat).
  { apply (H _ [Log timeout_msg]).
    - vm_compute. reflexivity.
    - intros Hin. apply has_log_spec in Hin. vm_compute in Hin. discriminate Hin. }
  vm_compute in Hc. discriminate Hc.
Qed.

(** C1 (corrected): for an identifier that is a CSS string
    ([css_string_safe]) and [maxRetries] at most [2 ^ 53] (or NaN), if
    the dropdown is never resolvable, neither at the start nor after any
    page change, the completed run logs the max-retries line, and before
    its first occurrence the Resolver ran exactly [lim cfg] times:
    [max N 1] for [maxRetries = N], and once for [NaN].  That line is
    where the observer is connected in the observer variant. *)
Theorem C1_attempts_before_observer : forall v cfg d env,
  css_string_safe (targetControlId cfg) = true -> bounded_retries cfg = true ->
  resolve (targetControlId cfg) d = None -> not_found_env (targetControlId cfg) env ->
  exists pre post,
    trace (fst (script_run v cfg (measure cfg (start v cfg d) env) d env))
      = pre ++ Log (max_msg v) :: post /\
    count_resolves pre = lim cfg /\ ~ In (Log (max_msg v)) pre.
Proof.
  intros v cfg d env _ Hb Hd He.
  destruct (script_final v cfg d env Hb) as [_ [_ D]].
  destruct (run_nf v cfg (measure cfg (start v cfg d) env) (start v cfg d) env
              (start_nf v cfg d Hd) He) as [_ [Hs Ho]].
  unfold script_run in D. unfold script_run.
  apply (done_split _ _ _ D). pose proof (done_terminal _ _ _ D) as T.
  destruct v; simpl in T.
  - destruct T as [T|[T|T]]; [contradiction | contradiction |].
    apply (done_timeout_max _ _ _ D). exact T.
  - destruct T as [T|T]; [contradiction | exact T].
Qed.

Lemma C1_attempts_before_observer_witness :
  resolve (targetControlId cfg_two) [] = None /\ not_found_env (targetControlId cfg_two) [] /\
  lim cfg_two = 2%nat /\
  exists pre post,
    trace (fst (script_run WithObserver cfg_two (measure cfg_two (start WithObserver cfg_two []) []) [] []))
      = pre ++ Log (max_msg WithObserver) :: post /\
    count_resolves pre = lim cfg_two /\ ~ In (Log (max_msg WithObserver)) pre.
Proof.
  split; [reflexivity|]. split; [intros e []|]. split; [reflexivity|].
  apply (C1_attempts_before_observer WithObserver cfg_two [] []);
    [reflexivity | reflexivity | reflexivity | intros e []].
Defined.

(** C4 (as stated, refuted): the observer's timeout is not cleared when
    the observer succeeds; here the select appears at 100 ms, the observer
    selects [Alpha] and logs its success, and at 1000 ms the timeout line
    is logged all the same. *)
Lemma C4_timeout_cancelled_counterexample :
  exists pre mid post,
    trace (fst (script_run WithObserver cfg_late 10 [] [late_select_event]))
      = pre ++ Log observer_success_msg :: mid ++ Log timeout_msg :: post.
Proof.
  exists [Log start_msg; Log (attempt_msg 1); Resolve; Log not_found_msg;
          Log (max_msg WithObserver); Log (attempt_msg 2); Resolve; Log (found_msg WithObserver);
          SetSelectedIndex 1 1; Dispatch 1 "change" true; Dispatch 1 "input" true;
          Log (selected_msg "Alpha")], [], [].
  vm_compute. reflexivity.
Qed.

(** C4 (corrected): once a run has logged a terminal line, the watch is
    disconnected, and however long the loop goes on and whatever page
    changes follow, the Resolver is never invoked again and the watch
    stays disconnected.  The observer timeout is not cancelled: at every
    point of a run that has logged the observer's success line, either
    the timeout is still pending or its line has been logged after the
    success line. *)
Theorem C4_no_resolution_after_terminal : forall v cfg f1 d env w env1,
  script_run v cfg f1 d env = (w, env1) ->
  (terminal_logged v (trace w) ->
   observer w = false /\
   forall f2 env2,
     count_resolves (trace (fst (run v cfg f2 w env2))) = count_resolves (trace w) /\
     observer (fst (run v cfg f2 w env2)) = false) /\
  (In (Log observer_success_msg) (trace w) ->
   (exists t, In (t, TObserverTimeout) (timers w)) \/
   exists pre mid post, trace w = pre ++ Log observer_success_msg :: mid ++ Log timeout_msg :: post).
Proof.
  intros v cfg f1 d env w env1 Hr. split.
  - intros Ht.
    pose proof (run_phase v cfg f1 (start v cfg d) env (proj1 (start_phase v cfg d env))) as Hp.
    unfold script_run in Hr. rewrite Hr in Hp. simpl in Hp.
    pose proof (phase_terminal_done v cfg w Hp Ht) as D.
    split; [exact (done_observer _ _ _ D)|].
    intros f2 env2. destruct (done_run v cfg f2 w env2 D) as [D' Hc].
    split; [exact Hc | exact (done_observer _ _ _ D')].
  - pose proof (run_TJ v cfg f1 (start v cfg d) env (start_TJ v cfg d)) as J.
    unfold script_run in Hr. rewrite Hr in J. simpl in J. exact (proj2 J).
Qed.

Lemma C4_no_resolution_after_terminal_witness :
  terminal_logged WithObserver (trace (fst (script_run WithObserver cfg_late 10 [] [late_select_event]))) /\
  observer (fst (script_run WithObserver cfg_late 10 [] [late_select_event])) = false /\
  ((exists t, In (t, TObserverTimeout) (timers (fst (script_run WithObserver cfg_late 10 [] [late_select_event])))) \/
   exists pre mid post, trace (fst (script_run WithObserver cfg_late 10 [] [late_select_event]))
     = pre ++ Log observer_success_msg :: mid ++ Log timeout_msg :: post).
Proof.
  assert (Hin : In (Log observer_success_msg)
                  (trace (fst (script_run WithObserver cfg_late 10 [] [late_select_event])))).
  { apply has_log_spec. vm_compute. reflexivity. }
  destruct (C4_no_resolution_after_terminal WithObserver cfg_late 10 [] [late_select_event]
              (fst (script_run WithObserver cfg_late 10 [] [late_select_event]))
              (snd (script_run WithObserver cfg_late 10 [] [late_select_event])))
    as [H1 H2]; [apply surjective_pairing|].
  assert (T : terminal_logged WithObserver
                (trace (fst (script_run WithObserver cfg_late 10 [] [late_select_event])))).
  { right. left. exact Hin. }
  split; [exact T|]. split; [exact (proj1 (H1 T))|]. exact (H2 Hin).
Defined.

(** [maxRetries] is a finite number above [2 ^ 53]. *)
Definition cfg_big : Config := mkConfig "dropdown-1" (Num (2 ^ 53 + 2)) 500 30000.

Lemma start_forever : forall v cfg d,
  bounded_retries cfg = false -> resolve (targetControlId cfg) d = None ->
  Forever v cfg (start v cfg d).
Proof.
  intros v cfg d Hb Hd. unfold start.
  apply tsr_forever; cbn [initial_world observer timers attempts dom trace]; auto; try lia.
  destruct v; show_marker_free.
Qed.

(** C9 (as stated, refuted): a run need not end in a success or a
    timeout.  In the retry-only variant a run in which the dropdown never
    appears comes to rest having logged neither; and with the finite
    [maxRetries = 2 ^ 53 + 2] a retry is pending after every number of
    turns, in both variants. *)
Lemma C9_always_succeeds_or_times_out_counterexample :
  (step RetryOnly cfg_two (fst (script_run RetryOnly cfg_two 10 [] [])) (snd (script_run RetryOnly cfg_two 10 [] [])) = None /\
   ~ (In (Log success_msg) (trace (fst (script_run RetryOnly cfg_two 10 [] []))) \/
      In (Log observer_success_msg) (trace (fst (script_run RetryOnly cfg_two 10 [] []))) \/
      In (Log timeout_msg) (trace (fst (script_run RetryOnly cfg_two 10 [] []))))) /\
  forall v f, exists t, timers (fst (script_run v cfg_big f [] [])) = [(t, TRetry)].
Proof.
  split.
  - split; [vm_compute; reflexivity|].
    intros [H|[H|H]]; apply has_log_spec in H; vm_compute in H; discriminate H.
  - intros v f. unfold script_run.
    destruct (run_forever v cfg_big f (start v cfg_big []) [])
      as [_ [H _]]; [reflexivity | apply start_forever; reflexivity | intros e [] | exact H].
Qed.

Lemma forever_not_terminal : forall v cfg w, Forever v cfg w -> ~ terminal_logged v (trace w).
Proof.
  intros v cfg w [_ [_ [_ [_ Hmf]]]] Ht.
  destruct v; simpl in Ht; repeat destruct Ht as [Ht|Ht];
    eapply marker_free_not_in; try exact Hmf; try exact Ht; unfold marker; auto.
Qed.

(** C9 (corrected): for an identifier that is a CSS string and
    [maxRetries] at most [2 ^ 53] (or NaN, or negative), every run, for
    every document and finite list of page changes, comes to rest within
    [2 * length env + 2 + budget cfg 0] turns of the event loop: no page
    change and no timer is left, the watch is disconnected, and a
    terminal line is logged; a success or the observer timeout in the
    observer variant, a success or the max-retries line in the
    retry-only variant.  With [maxRetries] above [2 ^ 53] (finite, or
    Infinity from a setting of 309 digits or more) a run in which the
    dropdown never appears retries for ever: after any number of turns a
    retry is pending, the watch is not connected and no terminal line is
    logged. *)
Theorem C9_run_terminates :
  (forall v cfg d env,
     css_string_safe (targetControlId cfg) = true -> bounded_retries cfg = true ->
     (measure cfg (start v cfg d) env <= 2 * length env + 2 + budget cfg 0)%nat /\
     let r := script_run v cfg (measure cfg (start v cfg d) env) d env in
     snd r = [] /\ timers (fst r) = [] /\ observer (fst r) = false /\
     step v cfg (fst r) (snd r) = None /\ terminal_logged v (trace (fst r))) /\
  (forall v cfg d env f,
     css_string_safe (targetControlId cfg) = true -> bounded_retries cfg = false ->
     resolve (targetControlId cfg) d = None -> not_found_env (targetControlId cfg) env ->
     let r := script_run v cfg f d env in
     observer (fst r) = false /\ (exists t, timers (fst r) = [(t, TRetry)]) /\
     step v cfg (fst r) (snd r) <> None /\ ~ terminal_logged v (trace (fst r))).
Proof.
  split.
  - intros v cfg d env _ Hb. split; [exact (proj2 (start_phase v cfg d env) Hb)|].
    intros r. destruct (script_final v cfg d env Hb) as [He [Ht D]]. fold r in He, Ht, D.
    split; [exact He|]. split; [exact Ht|]. split; [exact (done_observer _ _ _ D)|].
    split; [apply step_none; split; assumption | exact (done_terminal _ _ _ D)].
  - intros v cfg d env f _ Hb Hd He r.
    pose proof (run_forever v cfg f (start v cfg d) env Hb (start_forever v cfg d Hb Hd) He) as F.
    fold (script_run v cfg f d env) in F. fold r in F.
    pose proof (forever_not_terminal v cfg _ F) as Hnt.
    destruct F as [Ho [[t Ht] _]].
    split; [exact Ho|]. split; [exists t; exact Ht|]. split; [|exact Hnt].
    intros Hs. apply step_none in Hs. destruct Hs as [Ht' _]. rewrite Ht in Ht'. discriminate.
Qed.

Lemma C9_run_terminates_witness :
  timers (fst (script_run WithObserver cfg_two (measure cfg_two (start WithObserver cfg_two []) []) [] [])) = [] /\
  exists t, timers (fst (script_run WithObserver cfg_big 20 [] [])) = [(t, TRetry)].
Proof.
  destruct C9_run_terminates as [P1 P2]. split.
  - destruct (P1 WithObserver cfg_two [] [] eq_refl eq_refl) as [_ [_ [Ht _]]]. exact Ht.
  - destruct (P2 WithObserver cfg_big [] [] 20%nat eq_refl eq_refl eq_refl (fun e H => match H with end))
      as [_ [H _]].
    exact H.
Defined.

(** ** Further properties of the resolver and the selectors *)

(** [n] is the first element of [d], in document order, satisfying [p]. *)
Definition first_match (p : Node -> bool) (d : Doc) (n : Node) : Prop :=
  exists pre post, d = pre ++ n :: post /\ p n = true /\ forall m, In m pre -> p m = false.

(** Strategy 3 of [createScript] in [src/src/App.tsx]: a [for] loop with
    [break] over the dropdown-shaped elements, accepting when
    [parent && parent.textContent && parent.textContent.indexOf(id) >= 0]
    (an empty [textContent] is falsy). *)
Definition strategy3_app (id : string) (d : Doc) (el : Node) : bool :=
  match closest control_marker d el with
  | Some p => negb (String.eqb (textContent p) EmptyString) && contains id (textContent p)
  | None => false
  end.

Fixpoint first_app (id : string) (d : Doc) (all : list Node) : option Node :=
  match all with
  | [] => None
  | el :: rest => if strategy3_app id d el then Some el else first_app id d rest
  end.

(** The Resolver of [createScript]: strategies 1 and 2 are the same
    [querySelector] calls as in the template of [generateControlScript]. *)
Definition resolve_app (id : string) (d : Doc) : option Node :=
  match find (strategy1 id) d with
  | Some n => Some n
  | None =>
      match find (strategy2 id) d with
      | Some n => Some n
      | None => first_app id d (filter dropdown_shape d)
      end
  end.

Lemma find_first_match : forall p d n, find p d = Some n <-> first_match p d n.
Proof.
  intros p d n. induction d as [|x d IH]; simpl.
  - split; [discriminate|]. intros [pre [post [H _]]]. destruct pre; discriminate.
  - destruct (p x) eqn:Px; split.
    + intros H. injection H as <-. exists [], d. simpl.
      split; [reflexivity|]. split; [exact Px | intros m []].
    + intros [pre [post [E [Hn Hpre]]]]. destruct pre as [|y pre].
      * injection E as -> _. reflexivity.
      * injection E as -> _. rewrite (Hpre y (or_introl eq_refl)) in Px. discriminate.
    + intros H. apply IH in H. destruct H as [pre [post [E [Hn Hpre]]]].
      exists (x :: pre), post. rewrite E. split; [reflexivity|]. split; [exact Hn|].
      intros m [<-|Hm]; auto.
    + intros [pre [post [E [Hn Hpre]]]]. apply IH. destruct pre as [|y pre].
      * injection E as -> _. rewrite Hn in Px. discriminate.
      * injection E as -> E. exists pre, post. split; [exact E|]. split; [exact Hn|].
        intros m Hm. apply Hpre. right. exact Hm.
Qed.

Lemma find_none_iff : forall (p : Node -> bool) d, find p d = None <-> forall m, In m d -> p m = false.
Proof.
  intros p d. induction d as [|x d IH]; simpl.
  - split; [intros _ m []|reflexivity].
  - destruct (p x) eqn:Px; split.
    + discriminate.
    + intros H. rewrite (H x (or_introl eq_refl)) in Px. discriminate.
    + intros H m [<-|Hm]; [exact Px | apply IH; assumption].
    + intros H. apply IH. intros m Hm. apply H. right. exact Hm.
Qed.

Lemma contains_empty_text : forall id, id <> EmptyString -> contains id EmptyString = false.
Proof. intros [|c s] H; [congruence | reflexivity]. Qed.

Lemma first_app_find : forall id d all, id <> EmptyString ->
  first_app id d (filter dropdown_shape all) = find (strategy3 id d) all.
Proof.
  intros id d all Hid. induction all as [|el all IH]; simpl; [reflexivity|].
  unfold strategy3 at 1.
  destruct (dropdown_shape el); simpl; [|exact IH].
  unfold strategy3_app.
  destruct (closest control_marker d el) as [p|]; [|exact IH].
  destruct (String.eqb (textContent p) EmptyString) eqn:Et; simpl.
  - apply String.eqb_eq in Et. rewrite Et, (contains_empty_text id Hid). exact IH.
  - destruct (contains id (textContent p)); [reflexivity | exact IH].
Qed.

(** X2: for every non-empty identifier the Resolver of [createScript]
    (App.tsx) and the Resolver of the [generateControlScript] template
    return the same element on every document; they can only differ on
    the empty identifier, for which no script is generated. *)
Theorem X2_resolvers_agree : forall id d, id <> EmptyString -> resolve_app id d = resolve id d.
Proof.
  intros id d Hid. unfold resolve_app, resolve.
  destruct (find (strategy1 id) d); [reflexivity|].
  destruct (find (strategy2 id) d); [reflexivity|].
  apply first_app_find. exact Hid.
Qed.

Lemma X2_resolvers_agree_witness :
  "dropdown-1"%string <> EmptyString /\
  resolve_app "dropdown-1" [sel_target] = resolve "dropdown-1" [sel_target].
Proof. split; [discriminate | apply X2_resolvers_agree; discriminate]. Defined.

(** X3: when the native-select strategy succeeds, the index it assigns
    is within the option list, nothing but [selectedIndex] changes on the
    element, and the effects are, in order, the assignment, a bubbling
    [change] event, a bubbling [input] event and the log of the text of
    the option at that index. *)
Theorem X3_select_in_bounds : forall sel sel' es,
  handleSelectDropdown sel = (true, sel', es) ->
  0 <= selectedIndex sel' < Z.of_nat (length (options sel)) /\
  sel' = set_selectedIndex sel (selectedIndex sel') /\
  exists o, nth_error (options sel) (Z.to_nat (selectedIndex sel')) = Some o /\
    es = [SetSelectedIndex (nid sel) (Z.to_nat (selectedIndex sel'));
          Dispatch (nid sel) "change" true; Dispatch (nid sel) "input" true;
          Log (selected_msg (opt_text o))].
Proof.
  intros sel sel' es H. unfold handleSelectDropdown in H.
  destruct (Nat.ltb 0 (length (options sel))) eqn:E0; [|discriminate].
  destruct (Nat.ltb (startIndex (options sel)) (length (options sel))) eqn:E1; [|discriminate].
  injection H as <- <-. apply Nat.ltb_lt in E1. cbn [selectedIndex set_selectedIndex].
  rewrite Nat2Z.id. split; [lia|]. split; [reflexivity|].
  destruct (nth_error (options sel) (startIndex (options sel))) as [o|] eqn:En.
  - exists o. split; [reflexivity|]. rewrite (nth_error_nth _ _ (mkOption "" "") En). reflexivity.
  - apply nth_error_None in En. lia.
Qed.

Lemma X3_select_in_bounds_witness :
  handleSelectDropdown sel_target =
    (true, set_selectedIndex sel_target 1,
     [SetSelectedIndex 1 1; Dispatch 1 "change" true; Dispatch 1 "input" true;
      Log (selected_msg "Alpha")]) /\
  0 <= selectedIndex (set_selectedIndex sel_target 1) < Z.of_nat (length (options sel_target)).
Proof.
  assert (E : handleSelectDropdown sel_target =
    (true, set_selectedIndex sel_target 1,
     [SetSelectedIndex 1 1; Dispatch 1 "change" true; Dispatch 1 "input" true;
      Log (selected_msg "Alpha")])) by (vm_compute; reflexivity).
  split; [exact E | exact (proj1 (X3_select_in_bounds _ _ _ E))].
Defined.

Lemma filter_filter_and : forall (f g : Node -> bool) d,
  filter f (filter g d) = filter (fun x => g x && f x) d.
Proof.
  intros f g d. induction d as [|x d IH]; simpl; [reflexivity|].
  destruct (g x); simpl; [destruct (f x); simpl; rewrite IH; reflexivity | exact IH].
Qed.

Lemma filter_head_find : forall (q : Node -> bool) d m r, filter q d = m :: r -> find q d = Some m.
Proof.
  intros q d m r. induction d as [|x d IH]; simpl; [discriminate|].
  destruct (q x); [intros H; injection H as <- _; reflexivity | exact IH].
Qed.

Lemma filter_nil_none : forall (q : Node -> bool) d, filter q d = [] -> forall m, In m d -> q m = false.
Proof.
  intros q d. induction d as [|x d IH]; simpl; [intros _ m []|].
  destruct (q x) eqn:Qx; [discriminate|]. intros H m [<-|Hm]; [exact Qx | exact (IH H m Hm)].
Qed.

(** X4: the deferred part of the custom-widget strategy (the 200 ms
    callback of [handleCustomDropdown]) either clicks the first element,
    in document order, that is option-shaped and has a non-empty box, and
    logs its trimmed text, or, when there is no such element, only logs
    that no visible option was found.  It never assigns a
    [selectedIndex], dispatches an event or resolves. *)
Theorem X4_settle_first_visible_option : forall d,
  (exists m, first_match (fun x => option_shape x && visible x) d m /\
     settle_effects d = [Click (nid m); Log (selected_msg (trim (textContent m)))]) \/
  ((forall m, In m d -> option_shape m && visible m = false) /\
     settle_effects d = [Log no_visible_msg]).
Proof.
  intros d. unfold settle_effects. rewrite filter_filter_and.
  destruct (filter (fun x => option_shape x && visible x) d) as [|m r] eqn:F.
  - right. split; [exact (filter_nil_none _ d F)|].
    destruct (Nat.ltb 0 (length (filter option_shape d))); reflexivity.
  - left. exists m. split; [apply find_first_match; exact (filter_head_find _ d m r F)|].
    destruct (Nat.ltb 0 (length (filter option_shape d))) eqn:L; [reflexivity|].
    exfalso. assert (Hm : In m (filter (fun x => option_shape x && visible x) d))
      by (rewrite F; left; reflexivity).
    apply filter_In in Hm. destruct Hm as [Hm Hq]. apply andb_true_iff in Hq.
    destruct Hq as [Ho _]. apply Nat.ltb_ge in L.
    assert (Hin : In m (filter option_shape d)) by (apply filter_In; auto).
    destruct (filter option_shape d); [contradiction | simpl in L; lia].
Qed.

(** X5: a batch of mutation records none of which is a [childList]
    record with added nodes (attribute changes, removals only) leaves the
    run exactly as it was: no attempt, no log line, no selection. *)
Theorem X5_nonqualifying_batch_ignored : forall v cfg ms w,
  (forall m, In m ms -> qualifying m = false) -> observe_batch v cfg ms w = w.
Proof.
  intros v cfg ms w H. induction ms as [|m ms IH]; cbn [observe_batch]; [reflexivity|].
  rewrite (H m (or_introl eq_refl)). apply IH. intros m' Hm'. apply H. right. exact Hm'.
Qed.

Lemma X5_nonqualifying_batch_ignored_witness :
  (forall m, In m [mkMutation "attributes" 0; mkMutation "childList" 0] -> qualifying m = false) /\
  observe_batch WithObserver cfg_late [mkMutation "attributes" 0; mkMutation "childList" 0]
    (start WithObserver cfg_late []) = start WithObserver cfg_late [].
Proof.
  assert (H : forall m, In m [mkMutation "attributes" 0; mkMutation "childList" 0] ->
                        qualifying m = false).
  { intros m [<-|[<-|[]]]; reflexivity. }
  split; [exact H | apply X5_nonqualifying_batch_ignored; exact H].
Defined.

(** ** Turns of the event loop *)

Lemma run_S_some : forall v cfg f w env w' env',
  step v cfg w env = Some (w', env') -> run v cfg (S f) w env = run v cfg f w' env'.
Proof. intros v cfg f w env w' env' H. simpl. rewrite H. reflexivity. Qed.

Lemma run_stuck : forall v cfg f w env, step v cfg w env = None -> run v cfg f w env = (w, env).
Proof. intros v cfg [|f] w env H; simpl; [reflexivity | rewrite H; reflexivity]. Qed.

Lemma step_single_timer : forall v cfg w t k,
  timers w = [(t, k)] -> step v cfg w [] = Some (fire_timer v cfg (t, k) [] w, []).
Proof. intros v cfg w t k H. unfold step. rewrite H, pick_timer_single. reflexivity. Qed.

Lemma step_no_timer : forall v cfg w, timers w = [] -> step v cfg w [] = None.
Proof. intros v cfg w H. apply step_none. auto. Qed.

(** ** The retry-only variant *)

Lemma tsr_count : forall v cfg w,
  count_resolves (trace (trySelectWithRetry v cfg w)) = S (count_resolves (trace w)).
Proof.
  intros v cfg w. pose proof (selectFirstOption_count v cfg w) as Hc.
  unfold trySelectWithRetry. destruct (selectFirstOption v cfg w) as [w1 ok]. simpl fst in Hc.
  destruct ok; [|destruct (js_lt (attempts w1) (maxRetries cfg)); [|destruct v]];
    cbn [schedule setupDOMObserver set_observer trace];
    rewrite ?count_resolves_emit_log; exact Hc.
Qed.

Lemma lim_pos : forall cfg, (1 <= lim cfg)%nat.
Proof. intros cfg. unfold lim. destruct (maxRetries cfg); lia. Qed.

Definition RB (cfg : Config) (w : World) : Prop :=
  Phase RetryOnly cfg w /\ (count_resolves (trace w) <= lim cfg)%nat.

Lemma step_RB : forall cfg w env w' env',
  bounded_retries cfg = true -> RB cfg w -> step RetryOnly cfg w env = Some (w', env') -> RB cfg w'.
Proof.
  intros cfg w env w' env' Hb [Hp Hc] Hs.
  split; [exact (proj1 (step_phase RetryOnly cfg w env w' env' Hp Hs))|].
  destruct Hp as [t Ho Ht Ha Hlt Hcnt _ | t Hv _ _ _ _ _ _ | D]; [| discriminate Hv |].
  - destruct (step_cases RetryOnly cfg w env w' env' Hs) as [[p [rest [Hpk [-> _]]]]|[e [_ ->]]].
    + rewrite Ht, pick_timer_single in Hpk. injection Hpk as <- <-.
      unfold fire_timer. cbn [fst snd fire]. rewrite tsr_count. cbn [set_timers set_now trace].
      unfold bounded_retries in Hb. unfold js_lt in Hlt. unfold lim.
      destruct (maxRetries cfg) as [n| | |]; try discriminate.
      apply Z.leb_le in Hb. apply Z.ltb_lt in Hlt. rewrite Hcnt by lia. lia.
    + unfold deliver. cbn [set_dom set_now observer]. rewrite Ho. exact Hc.
  - destruct (done_step RetryOnly cfg w env w' env' D Hs) as [_ [Hc' _]]. rewrite Hc'. exact Hc.
Qed.

Lemma run_RB : forall cfg f w env,
  bounded_retries cfg = true -> RB cfg w -> RB cfg (fst (run RetryOnly cfg f w env)).
Proof.
  intros cfg f. induction f as [|f IH]; intros w env Hb H; [exact H|].
  simpl. destruct (step RetryOnly cfg w env) as [[w' env']|] eqn:E; [|exact H].
  apply IH; [exact Hb | exact (step_RB cfg w env w' env' Hb H E)].
Qed.

Lemma run_forever_count : forall v cfg f w,
  bounded_retries cfg = false -> Forever v cfg w ->
  count_resolves (trace (fst (run v cfg f w []))) = (count_resolves (trace w) + f)%nat.
Proof.
  intros v cfg f. induction f as [|f IH]; intros w Hb H; [simpl; lia|].
  destruct H as [Ho [[t Ht] Hrest]].
  assert (Hs : step v cfg w [] = Some (fire_timer v cfg (t, TRetry) [] w, []))
    by (apply step_single_timer; exact Ht).
  rewrite (run_S_some v cfg f w [] _ _ Hs).
  destruct (step_forever v cfg w [] _ _ Hb (conj Ho (conj (ex_intro _ t Ht) Hrest))
              (fun e H => match H with end) Hs) as [F _].
  rewrite (IH _ Hb F). unfold fire_timer. cbn [fst snd fire]. rewrite tsr_count.
  cbn [set_timers set_now trace]. lia.
Qed.

(** X7: in the retry-only script of [createScript], when [maxRetries] is
    at most [2 ^ 53] (or NaN, or negative), the Resolver runs at most
    [lim cfg] times over a whole run ([max N 1] for [maxRetries = N],
    once for [NaN]), whatever the document does and however long the
    run goes on.  For a larger [maxRetries] the bound fails: the counter
    stops at [2 ^ 53], and with [maxRetries = 2 ^ 53 + 2] and no dropdown
    the Resolver has run [lim cfg + 1] times after [lim cfg] turns. *)
Theorem X7_retry_only_resolution_bound :
  (forall cfg f d env, bounded_retries cfg = true ->
     (count_resolves (trace (fst (script_run RetryOnly cfg f d env))) <= lim cfg)%nat) /\
  (lim cfg_big < count_resolves (trace (fst (script_run RetryOnly cfg_big (lim cfg_big) [] []))))%nat.
Proof.
  split.
  - intros cfg f d env Hb. unfold script_run.
    assert (Hs : (count_resolves (trace (start RetryOnly cfg d)) <= lim cfg)%nat).
    { unfold start. rewrite tsr_count. cbn [initial_world trace].
      change (count_resolves [Log start_msg]) with 0%nat. pose proof (lim_pos cfg). lia. }
    exact (proj2 (run_RB cfg f (start RetryOnly cfg d) env Hb (conj (proj1 (start_phase RetryOnly cfg d env)) Hs))).
  - unfold script_run.
    rewrite (run_forever_count RetryOnly cfg_big (lim cfg_big) (start RetryOnly cfg_big []) eq_refl
               (start_forever RetryOnly cfg_big [] eq_refl eq_refl)).
    unfold start. rewrite tsr_count. cbn [initial_world trace]. lia.
Qed.

Lemma X7_retry_only_resolution_bound_witness :
  bounded_retries cfg_two = true /\
  (count_resolves (trace (fst (script_run RetryOnly cfg_two 10 [sel_target] []))) <= lim cfg_two)%nat.
Proof.
  split; [reflexivity|]. apply (proj1 X7_retry_only_resolution_bound). reflexivity.
Defined.

(** ** [parseInt] on rendered integers *)

Lemma digit_char_val : forall k, (k < 10)%N ->
  digit_val (ascii_of_N (48 + k)) = Some (Z.of_N k).
Proof.
  intros k Hk.
  assert (H : k = 0%N \/ k = 1%N \/ k = 2%N \/ k = 3%N \/ k = 4%N \/ k = 5%N \/ k = 6%N
              \/ k = 7%N \/ k = 8%N \/ k = 9%N) by lia.
  repeat destruct H as [->|H]; try (vm_compute; reflexivity). subst k. vm_compute. reflexivity.
Qed.

Lemma digit_range : forall c v, digit_val c = Some v -> (48 <= nat_of_ascii c <= 57)%nat.
Proof.
  intros c v H. unfold digit_val in H.
  destruct (Nat.leb 48 (nat_of_ascii c) && Nat.leb (nat_of_ascii c) 57)%bool eqn:E; [|discriminate].
  apply andb_true_iff in E. destruct E as [E1 E2].
  apply Nat.leb_le in E1. apply Nat.leb_le in E2. lia.
Qed.

Lemma trim_left_digit : forall c r v, digit_val c = Some v -> trim_left (String c r) = String c r.
Proof.
  intros c r v H. pose proof (digit_range c v H) as R. cbn [trim_left].
  assert (Hw : is_ws c = false).
  { unfold is_ws. repeat rewrite (proj2 (Nat.eqb_neq _ _)) by lia. reflexivity. }
  rewrite Hw. destruct r as [|c2 [|c3 r3]]; [reflexivity| |].
  - unfold is_ws2. rewrite (proj2 (Nat.eqb_neq (nat_of_ascii c) 194)) by lia. reflexivity.
  - unfold is_ws2. rewrite (proj2 (Nat.eqb_neq (nat_of_ascii c) 194)) by lia.
    unfold is_ws3. cbv zeta.
    rewrite (proj2 (Nat.eqb_neq (nat_of_ascii c) 225)) by lia.
    rewrite (proj2 (Nat.eqb_neq (nat_of_ascii c) 226)) by lia.
    rewrite (proj2 (Nat.eqb_neq (nat_of_ascii c) 227)) by lia.
    rewrite (proj2 (Nat.eqb_neq (nat_of_ascii c) 239)) by lia. reflexivity.
Qed.

Lemma parse_digits_digits_of : forall f n acc, (Z.of_N n < 10 ^ Z.of_nat f) ->
  parse_digits (digits_of f n acc) 0 = parse_digits acc (Z.of_N n).
Proof.
  intros f. induction f as [|f IH]; intros n acc Hn.
  - simpl in Hn. assert (n = 0%N) by lia. subst n. reflexivity.
  - cbn [digits_of].
    assert (Hd : (n mod 10 < 10)%N) by (apply N.mod_lt; discriminate).
    assert (Hn' : n = (10 * (n / 10) + n mod 10)%N) by (apply N.div_mod; discriminate).
    destruct (N.eqb (n / 10) 0) eqn:Eq.
    + apply N.eqb_eq in Eq. cbn [parse_digits]. rewrite (digit_char_val _ Hd).
      f_equal. lia.
    + rewrite IH.
      * cbn [parse_digits]. rewrite (digit_char_val _ Hd). f_equal. lia.
      * rewrite Nat2Z.inj_succ, Z.pow_succ_r in Hn by lia.
        remember (10 ^ Z.of_nat f) as P. clear HeqP.
        rewrite N2Z.inj_div. change (Z.of_N 10) with 10. Z.div_mod_to_equations. lia.
Qed.

Lemma digits_of_first : forall f n acc, exists c r v,
  digits_of (S f) n acc = String c r /\ digit_val c = Some v.
Proof.
  intros f. induction f as [|f IH]; intros n acc.
  - cbn [digits_of]. destruct (N.eqb (n / 10) 0);
      [|cbn [digits_of]]; (eexists; eexists; eexists; split; [reflexivity|];
                            apply digit_char_val; apply N.mod_lt; discriminate).
  - cbn [digits_of]. destruct (N.eqb (n / 10) 0).
    + eexists; eexists; eexists; split; [reflexivity|]. apply digit_char_val. apply N.mod_lt; discriminate.
    + exact (IH (n / 10)%N _).
Qed.

Lemma digits_of_append : forall f n acc t,
  (digits_of f n acc ++ t)%string = digits_of f n (acc ++ t).
Proof.
  intros f. induction f as [|f IH]; intros n acc t; [reflexivity|].
  cbn [digits_of]. destruct (N.eqb (n / 10) 0); [reflexivity|]. rewrite IH. reflexivity.
Qed.

Lemma parse_digits_stop : forall t z, starts_digit t = false -> parse_digits t z = z.
Proof.
  intros [|c t] z H; [reflexivity|]. simpl in H. simpl.
  destruct (digit_val c); [discriminate | reflexivity].
Qed.

Lemma pos_size_nat_bound : forall p, Z.pos p < 2 ^ Z.of_nat (Pos.size_nat p).
Proof.
  induction p as [p IH|p IH|]; cbn [Pos.size_nat].
  - rewrite Nat2Z.inj_succ, Z.pow_succ_r by lia. rewrite Pos2Z.inj_xI. lia.
  - rewrite Nat2Z.inj_succ, Z.pow_succ_r by lia. rewrite Pos2Z.inj_xO. lia.
  - simpl. lia.
Qed.

Lemma N_size_fuel : forall n, Z.of_N n < 10 ^ Z.of_nat (S (N.size_nat n)).
Proof.
  intros [|p]; [simpl; lia|]. cbn [N.size_nat].
  pose proof (pos_size_nat_bound p) as H.
  assert (H2 : 2 ^ Z.of_nat (Pos.size_nat p) <= 10 ^ Z.of_nat (Pos.size_nat p))
    by (apply Z.pow_le_mono_l; lia).
  rewrite Nat2Z.inj_succ, Z.pow_succ_r by lia.
  assert (0 < 10 ^ Z.of_nat (Pos.size_nat p)) by (apply Z.pow_pos_nonneg; lia).
  simpl Z.of_N. lia.
Qed.

Lemma to_number_small : forall neg m, 0 <= m <= 2 ^ 53 ->
  to_number neg m = Num (if neg then - m else m).
Proof.
  intros neg m H. unfold to_number, round_mag.
  replace (m <=? 2 ^ 53) with true by (symmetry; apply Z.leb_le; lia).
  replace (2 ^ 1024 <=? m) with false by (symmetry; apply Z.leb_gt; lia).
  destruct neg; reflexivity.
Qed.

Lemma parse_unsigned_N : forall neg n t, starts_digit t = false ->
  parse_unsigned neg (N_to_string n ++ t)%string = to_number neg (Z.of_N n) /\
  exists c r v, (N_to_string n ++ t)%string = String c r /\ digit_val c = Some v.
Proof.
  intros neg n t Ht. unfold N_to_string. rewrite digits_of_append.
  destruct (digits_of_first (N.size_nat n) n (EmptyString ++ t)) as [c [r [v [E Hc]]]].
  split; [|exists c, r, v; split; [exact E | exact Hc]].
  unfold parse_unsigned. rewrite E, Hc. rewrite <- E.
  rewrite (parse_digits_digits_of _ n _ (N_size_fuel n)).
  simpl append. rewrite (parse_digits_stop t _ Ht). reflexivity.
Qed.

Lemma parseInt10_digit_start : forall c r v, digit_val c = Some v ->
  parseInt10 (String c r) = parse_unsigned false (String c r).
Proof.
  intros c r v H. unfold parseInt10. rewrite (trim_left_digit c r v H).
  destruct (Ascii.eqb c "-") eqn:E1.
  - apply Ascii.eqb_eq in E1. subst c. vm_compute in H. discriminate H.
  - destruct (Ascii.eqb c "+") eqn:E2; [|reflexivity].
    apply Ascii.eqb_eq in E2. subst c. vm_compute in H. discriminate H.
Qed.

(** X8: [parseInt(s, 10)], as applied to the [retryAttempts] setting,
    reads back every integer of magnitude at most [2 ^ 53] from its
    decimal rendering, also when text that does not start with a digit
    follows it: ['5'] and ['5 retries'] give 5, ['-2'] gives -2.  Larger
    values are rounded to a double: ['9007199254740993'] gives
    [2 ^ 53]. *)
Theorem X8_parseInt_reads_rendered_integer :
  (forall z t, Z.abs z <= 2 ^ 53 -> starts_digit t = false -> parseInt10 (Z_to_string z ++ t) = Num z) /\
  parseInt10 "9007199254740993" = Num (2 ^ 53).
Proof.
  split; [|vm_compute; reflexivity].
  intros z t Hz Ht. unfold Z_to_string. destruct (z <? 0) eqn:Ez.
  - apply Z.ltb_lt in Ez. simpl append.
    destruct (parse_unsigned_N true (Z.to_N (- z)) t Ht) as [E [c [r [v [Es _]]]]].
    assert (Htl : trim_left (String "-" (N_to_string (Z.to_N (- z)) ++ t))
                  = String "-" (N_to_string (Z.to_N (- z)) ++ t)).
    { rewrite Es. destruct r; reflexivity. }
    unfold parseInt10. rewrite Htl. change (Ascii.eqb "-" "-") with true. cbv iota. rewrite E.
    rewrite to_number_small by lia. f_equal. lia.
  - apply Z.ltb_ge in Ez.
    destruct (parse_unsigned_N false (Z.to_N z) t Ht) as [E [c [r [v [Es Hc]]]]].
    rewrite Es, (parseInt10_digit_start c r v Hc), <- Es, E.
    rewrite to_number_small by lia. f_equal. lia.
Qed.

Lemma X8_parseInt_reads_rendered_integer_witness :
  starts_digit " retries" = false /\ parseInt10 (Z_to_string 5 ++ " retries") = Num 5 /\
  starts_digit "" = false /\ parseInt10 (Z_to_string (-2) ++ "") = Num (-2).
Proof.
  destruct X8_parseInt_reads_rendered_integer as [H _].
  split; [reflexivity|]. split; [apply H; [lia | reflexivity]|].
  split; [reflexivity | apply H; [lia | reflexivity]].
Defined.

(** ** Duration of a run that never finds the dropdown *)

Definition observer_time (v : Variant) (cfg : Config) : Z :=
  match v with WithObserver => Z.max 0 (observerTimeout cfg) | RetryOnly => 0 end.

Lemma tsr_none : forall v cfg w,
  resolve (targetControlId cfg) (dom w) = None ->
  trySelectWithRetry v cfg w =
    let w1 := emit [Log not_found_msg] (cycle_prefix v w) in
    if js_lt (attempts w1) (maxRetries cfg) then
      schedule (retryDelay cfg) TRetry (emit [Log (retry_msg cfg (attempts w1))] w1)
    else match v with
         | WithObserver => setupDOMObserver cfg (emit [Log (max_msg v)] w1)
         | RetryOnly => emit [Log (max_msg v)] w1
         end.
Proof. intros v cfg w H. unfold trySelectWithRetry. rewrite (selectFirstOption_none v cfg w H). reflexivity. Qed.

(** Once the retries are used up at time [t], the run ends at [t] plus
    the observer time. *)
Lemma exhausted_end : forall v cfg w1 f,
  timers w1 = [] -> (1 <= f)%nat ->
  now (fst (run v cfg f (match v with
                         | WithObserver => setupDOMObserver cfg (emit [Log (max_msg v)] w1)
                         | RetryOnly => emit [Log (max_msg v)] w1
                         end) [])) = now w1 + observer_time v cfg.
Proof.
  intros v cfg w1 f Ht Hf. destruct f as [|f]; [lia|]. destruct v.
  - unfold setupDOMObserver.
    assert (Hs : timers (schedule (observerTimeout cfg) TObserverTimeout
                           (set_observer true (emit [Log (max_msg WithObserver)] w1)))
                 = [(now w1 + Z.max 0 (observerTimeout cfg), TObserverTimeout)])
      by (cbn [schedule set_observer emit timers now]; rewrite Ht; reflexivity).
    rewrite (run_S_some _ _ _ _ _ _ _ (step_single_timer WithObserver cfg _ _ _ Hs)).
    rewrite run_stuck by (apply step_no_timer; reflexivity).
    cbn [fst fire_timer fire snd fst emit set_observer set_timers set_now schedule now].
    unfold observer_time. lia.
  - rewrite run_stuck by (apply step_no_timer; cbn [emit timers]; exact Ht).
    cbn [fst emit now]. unfold observer_time. lia.
Qed.

Lemma never_found_chain : forall v cfg n j w t f,
  maxRetries cfg = Num n -> n <= 2 ^ 53 -> 0 <= attempts w ->
  resolve (targetControlId cfg) (dom w) = None -> timers w = [(t, TRetry)] -> now w <= t ->
  Z.to_nat (n - attempts w) = S j -> (S (S j) <= f)%nat ->
  now (fst (run v cfg f w [])) = t + Z.of_nat j * Z.max 0 (retryDelay cfg) + observer_time v cfg.
Proof.
  intros v cfg n j. induction j as [|j IH]; intros w t f Hn Hn53 Ha Hr Ht Hle Hk Hf;
    (destruct f as [|f]; [lia|]);
    rewrite (run_S_some _ _ _ _ _ _ _ (step_single_timer v cfg w t TRetry Ht));
    unfold fire_timer; cbn [fst snd fire];
    rewrite tsr_none by exact Hr; cbv zeta; unfold cycle_prefix;
    cbn [emit set_attempts set_timers set_now attempts];
    (rewrite js_incr_small by lia); rewrite Hn; cbn [js_lt].
  - replace (attempts w + 1 <? n) with false by (symmetry; apply Z.ltb_ge; lia).
    rewrite exhausted_end by (reflexivity || lia).
    cbn [emit set_attempts set_timers set_now now]. lia.
  - replace (attempts w + 1 <? n) with true by (symmetry; apply Z.ltb_lt; lia).
    rewrite (IH _ (Z.max (now w) t + Z.max 0 (retryDelay cfg)) f Hn Hn53);
      cbn [schedule emit set_attempts set_timers set_now now dom timers attempts app];
      first [exact Hr | reflexivity | lia].
Qed.

(** X9: for an identifier that is a CSS string, [maxRetries] at most
    [2 ^ 53] (or NaN, or negative) and both delays between 4 ms and
    [2 ^ 31 - 1] ms (where [setTimeout] neither raises nor wraps them),
    when the dropdown is absent and the page does not change, the run's
    last callback fires [(lim cfg - 1) * retryDelay] ms after the start
    plus, in the observer variant, [observerTimeout] ms: with the
    generated defaults, 3 retries, 500 ms and 30000 ms, it ends 31000 ms
    after the start. *)
Theorem X9_never_found_duration : forall v cfg d f,
  css_string_safe (targetControlId cfg) = true -> bounded_retries cfg = true ->
  4 <= retryDelay cfg < 2 ^ 31 -> 4 <= observerTimeout cfg < 2 ^ 31 ->
  resolve (targetControlId cfg) d = None -> (S (lim cfg) <= f)%nat ->
  now (fst (script_run v cfg f d [])) =
    Z.of_nat (lim cfg - 1) * retryDelay cfg
    + match v with WithObserver => observerTimeout cfg | RetryOnly => 0 end.
Proof.
  intros v cfg d f _ Hb Hrd Hot Hd Hf.
  replace (match v with WithObserver => observerTimeout cfg | RetryOnly => 0 end)
    with (observer_time v cfg) by (destruct v; unfold observer_time; lia).
  replace (retryDelay cfg) with (Z.max 0 (retryDelay cfg)) at 1 by lia.
  unfold script_run, start.
  rewrite tsr_none by exact Hd. cbv zeta. unfold cycle_prefix.
  cbn [initial_world emit set_attempts attempts].
  rewrite (js_incr_small 0) by lia.
  destruct (js_lt (0 + 1) (maxRetries cfg)) eqn:El.
  - unfold bounded_retries in Hb.
    destruct (maxRetries cfg) as [n| | |] eqn:En; try discriminate.
    simpl in El. apply Z.ltb_lt in El. apply Z.leb_le in Hb.
    assert (Hl : lim cfg = Z.to_nat n) by (unfold lim; rewrite En; lia).
    rewrite (never_found_chain v cfg n (Z.to_nat n - 2) _ (0 + Z.max 0 (retryDelay cfg)) f En Hb);
      cbn [schedule emit set_attempts initial_world now dom timers attempts app];
      try (exact Hd || reflexivity || lia).
    rewrite Hl. replace (Z.of_nat (Z.to_nat n - 1)) with (Z.of_nat (Z.to_nat n - 2) + 1) by lia.
    ring.
  - assert (Hl : lim cfg = 1%nat).
    { unfold lim. unfold js_lt in El. destruct (maxRetries cfg) as [n| | |]; try reflexivity.
      apply Z.ltb_ge in El. lia. }
    rewrite Hl. rewrite exhausted_end by (reflexivity || lia).
    cbn [emit set_attempts initial_world now]. simpl. lia.
Qed.

(** The [CONFIG] of a script generated from settings that give only the
    target identifier. *)
Definition default_config (id : string) : Config := mkConfig id (Num 3) 500 30000.

Lemma X9_never_found_duration_witness :
  baked_config WithObserver "dropdown-1" (mkPluginConfig (Some "dropdown-1"%string) None None None None)
    = Some (default_config "dropdown-1") /\
  now (fst (script_run WithObserver (default_config "dropdown-1") 4 [] [])) = 31000.
Proof.
  split; [vm_compute; reflexivity|].
  rewrite (X9_never_found_duration WithObserver (default_config "dropdown-1") [] 4
             eq_refl eq_refl ltac:(cbn; lia) ltac:(cbn; lia) eq_refl ltac:(vm_compute; lia)).
  vm_compute. reflexivity.
Defined.
